(** * audio-recorder: the [record] command and its AIFF container writer

    A shallow embedding of [recordCmd.Run], [writeFormChunk],
    [writeCommonChunk] and [writeSoundChunk], and the properties of the
    header layout, the capture loop, the size patches and the deferred
    teardown.

    The output file is a byte sequence with a cursor.  Every call that
    leaves the program (file system, portaudio, channels) takes its result
    from an environment [env] and is recorded in a trace, so that "was
    attempted", "ran once" and "ran before" are statements about traces. *)

From Stdlib Require Import ZArith List String Ascii Bool Lia.
From Stdlib Require Import DecimalString DecimalZ DecimalPos.
Import ListNotations.

Abbreviation length := List.length.

Open Scope string_scope.
Open Scope list_scope.
Open Scope Z_scope.

(** ** Machine integers *)

(** Go's [int] on the 64-bit targets, [int32] and the conversion between
    them: signed two's-complement wrap-around. *)
Definition wrap (bits : Z) (x : Z) : Z :=
  (x + 2 ^ (bits - 1)) mod 2 ^ bits - 2 ^ (bits - 1).

Definition int (x : Z) : Z := wrap 64 x.
Definition int32 (x : Z) : Z := wrap 32 x.
Definition int16 (x : Z) : Z := wrap 16 x.

Definition max_int32 : Z := 2 ^ 31 - 1.
Definition max_int : Z := 2 ^ 63 - 1.

(** ** encoding/binary, big endian *)

Definition byte_of (v : Z) (shift : Z) : Z := Z.land (Z.shiftr v shift) 255.

(** [binary.BigEndian.PutUint32(bs, uint32(v))] *)
Definition be32 (v : Z) : list Z :=
  [byte_of v 24; byte_of v 16; byte_of v 8; byte_of v 0].

(** [binary.BigEndian.PutUint16(bs, uint16(v))] *)
Definition be16 (v : Z) : list Z := [byte_of v 8; byte_of v 0].

(** [binary.Write(f, binary.BigEndian, in)] for [in []int32]: the samples one
    after the other, four bytes each. *)
Definition be32s (samples : list Z) : list Z := flat_map be32 samples.

(** Reading a field back: the unsigned value of big-endian bytes and its
    reading as an [int32]. *)
Definition be_unsigned (bs : list Z) : Z :=
  fold_left (fun acc b => acc * 256 + b) bs 0.

Definition be_int32 (bs : list Z) : Z := int32 (be_unsigned bs).

(** The bytes of a Go string (ASCII here). *)
Definition bytes_of_string (s : string) : list Z :=
  map (fun c => Z.of_N (N_of_ascii c)) (list_ascii_of_string s).

(** [fmt.Sprintf("%d", n)] *)
Definition fmt_d (n : Z) : string := NilZero.string_of_int (Z.to_int n).

(** ** The output file *)

(** [slice off len data]: the [len] bytes of [data] from offset [off]. *)
Definition slice (off len : nat) (data : list Z) : list Z :=
  firstn len (skipn off data).

(** Writing [bs] at offset [pos]: bytes in place are overwritten, the file
    grows when the write runs past its end, and a gap between the end and
    [pos] reads as zeros. *)
Definition write_at (pos : nat) (bs data : list Z) : list Z :=
  match bs with
  | [] => data
  | _ => firstn pos data ++ repeat 0 (pos - length data)%nat ++ bs
         ++ skipn (pos + length bs) data
  end.

(** ** Results that come from outside *)

Definition error := string.

(** A write either takes all the bytes, or fails after taking the first [n]
    of them. *)
Inductive wres :=
| WOk
| WErr (n : nat) (e : error).

(** [stream.Read()]: fresh samples in the buffer, or an error; the library
    may or may not have touched the buffer when it reports an error. *)
Inductive read_res :=
| ReadOk (samples : list Z)
| ReadErr (touched : option (list Z)) (e : error).

(** Which channel the [select] of the capture loop finally received from. *)
Inductive channel := ChDone | ChStop.

Record env := {
  flag_out : string;              (* --out / -o, empty when not given *)
  now_unix : Z;                   (* time.Now().Unix() *)
  create_res : option error;      (* os.Create *)
  write_res : nat -> wres;        (* the k-th write on the file *)
  seek_res : nat -> option error; (* the k-th seek on the file *)
  fclose_res : option error;      (* f.Close *)
  init_res : option error;        (* portaudio.Initialize *)
  terminate_res : option error;   (* portaudio.Terminate *)
  open_res : option error;        (* portaudio.OpenDefaultStream *)
  start_res : option error;       (* stream.Start *)
  stop_res : option error;        (* stream.Stop *)
  sclose_res : option error;      (* stream.Close *)
  ticks : list read_res;          (* one per pass through [default] *)
  ending : channel                (* the receive that ends the loop *)
}.

(** ** Traces *)

Inductive level := Info | Success | Error.

Inductive event :=
| EvLog (l : level) (msg : string)      (* flog.Info / Success / Error *)
| EvUsage                               (* fl.Usage() *)
| EvNotify                              (* signal.Notify(stop, signals...) *)
| EvCreate (name : string)              (* os.Create(name) *)
| EvWrite (off : nat) (bs : list Z)     (* a write of [bs] at the cursor *)
| EvSeek (off : nat)                    (* f.Seek(off, 0) *)
| EvFileClose                           (* f.Close() *)
| EvInitialize                          (* portaudio.Initialize() *)
| EvTerminate                           (* portaudio.Terminate() *)
| EvOpenStream (frames : nat)           (* OpenDefaultStream(1,0,44100,frames,in) *)
| EvStreamStart
| EvStreamStop
| EvStreamClose
| EvStreamRead                          (* stream.Read() *)
| EvRecv (c : channel).                 (* <-done or <-stop *)

(** The five deferred closures of [Run], in the order they are registered. *)
Inductive deferred :=
| DCloseFile
| DFillSizes
| DTerminate
| DCloseStream
| DStopStream.

(** ** Program state *)

Record world := {
  f_data : list Z;          (* contents of the file behind [f] *)
  f_pos : nat;              (* its cursor *)
  n_writes : nat;           (* writes made so far *)
  n_seeks : nat;            (* seeks made so far *)
  trace : list event;
  defers : list deferred;   (* deferred calls, last registered first *)
  outFile : string;         (* cmd.outFile *)
  err : option error;       (* [err] of Run's scope, shared with the closures *)
  numSamples : Z;
  in_buf : list Z           (* [in] *)
}.

(** The state in which [Run] is entered: the flag parser has stored the
    value of [--out] in [cmd.outFile]; no file is open yet. *)
Definition init_world (out : string) : world :=
  {| f_data := []; f_pos := 0; n_writes := 0; n_seeks := 0; trace := [];
     defers := []; outFile := out; err := None; numSamples := 0;
     in_buf := [] |}.

(** ** A state monad over [world] *)

Definition M (A : Type) : Type := world -> A * world.

Definition ret {A} (a : A) : M A := fun w => (a, w).

Definition bind {A B} (m : M A) (k : A -> M B) : M B :=
  fun w => let (a, w') := m w in k a w'.

Declare Scope run_scope.
Delimit Scope run_scope with run.
Notation "x <- m ;; k" := (bind m (fun x => k))
  (at level 61, m at next level, right associativity) : run_scope.
Notation "m ;; k" := (bind m (fun _ => k))
  (at level 61, right associativity) : run_scope.
Open Scope run_scope.

Definition emit (ev : event) : M unit := fun w =>
  (tt, {| f_data := f_data w; f_pos := f_pos w; n_writes := n_writes w;
          n_seeks := n_seeks w; trace := trace w ++ [ev];
          defers := defers w; outFile := outFile w; err := err w;
          numSamples := numSamples w; in_buf := in_buf w |}).

Definition defer (d : deferred) : M unit := fun w =>
  (tt, {| f_data := f_data w; f_pos := f_pos w; n_writes := n_writes w;
          n_seeks := n_seeks w; trace := trace w;
          defers := d :: defers w; outFile := outFile w; err := err w;
          numSamples := numSamples w; in_buf := in_buf w |}).

Definition set_outFile (s : string) : M unit := fun w =>
  (tt, {| f_data := f_data w; f_pos := f_pos w; n_writes := n_writes w;
          n_seeks := n_seeks w; trace := trace w;
          defers := defers w; outFile := s; err := err w;
          numSamples := numSamples w; in_buf := in_buf w |}).

Definition set_err (e : option error) : M unit := fun w =>
  (tt, {| f_data := f_data w; f_pos := f_pos w; n_writes := n_writes w;
          n_seeks := n_seeks w; trace := trace w;
          defers := defers w; outFile := outFile w; err := e;
          numSamples := numSamples w; in_buf := in_buf w |}).

Definition set_numSamples (n : Z) : M unit := fun w =>
  (tt, {| f_data := f_data w; f_pos := f_pos w; n_writes := n_writes w;
          n_seeks := n_seeks w; trace := trace w;
          defers := defers w; outFile := outFile w; err := err w;
          numSamples := n; in_buf := in_buf w |}).

Definition set_in (b : list Z) : M unit := fun w =>
  (tt, {| f_data := f_data w; f_pos := f_pos w; n_writes := n_writes w;
          n_seeks := n_seeks w; trace := trace w;
          defers := defers w; outFile := outFile w; err := err w;
          numSamples := numSamples w; in_buf := b |}).

Definition get {A} (proj : world -> A) : M A := fun w => (proj w, w).

Definition flog (l : level) (msg : string) : M unit := emit (EvLog l msg).

(** ** Calls on the file and on portaudio *)

Section Session.

Variable E : env.

(** One write on [f]: the bytes the environment lets through land at the
    cursor, which advances past them. *)
Definition f_Write (bs : list Z) : M (option error) := fun w =>
  let r := write_res E (n_writes w) in
  let taken := match r with WOk => bs | WErr k _ => firstn k bs end in
  (match r with WOk => None | WErr _ e => Some e end,
   {| f_data := write_at (f_pos w) taken (f_data w);
      f_pos := f_pos w + length taken;
      n_writes := S (n_writes w); n_seeks := n_seeks w;
      trace := trace w ++ [EvWrite (f_pos w) bs];
      defers := defers w; outFile := outFile w; err := err w;
      numSamples := numSamples w; in_buf := in_buf w |}).

(** [f.WriteString(s)] *)
Definition f_WriteString (s : string) : M (option error) :=
  f_Write (bytes_of_string s).

(** [f.Seek(off, 0)]: a failed seek leaves the cursor where it was. *)
Definition f_Seek (off : nat) : M (option error) := fun w =>
  let r := seek_res E (n_seeks w) in
  (r,
   {| f_data := f_data w;
      f_pos := match r with None => off | Some _ => f_pos w end;
      n_writes := n_writes w; n_seeks := S (n_seeks w);
      trace := trace w ++ [EvSeek off];
      defers := defers w; outFile := outFile w; err := err w;
      numSamples := numSamples w; in_buf := in_buf w |}).

(** [os.Create(name)]: a new, empty file with the cursor at 0. *)
Definition os_Create (name : string) : M (option error) := fun w =>
  let r := create_res E in
  (r,
   {| f_data := match r with None => [] | Some _ => f_data w end;
      f_pos := match r with None => 0%nat | Some _ => f_pos w end;
      n_writes := n_writes w; n_seeks := n_seeks w;
      trace := trace w ++ [EvCreate name];
      defers := defers w; outFile := outFile w; err := err w;
      numSamples := numSamples w; in_buf := in_buf w |}).

(** A call whose only effect here is its result. *)
Definition call (ev : event) (r : option error) : M (option error) :=
  emit ev ;; ret r.

Notation "'check' m ;; k" :=
  (bind m (fun r => match r with Some e => ret (Some e) | None => k end))
  (at level 61, m at next level, right associativity) : run_scope.

(** ** The three header chunks *)

Definition writeFormChunk : M (option error) :=
  (* header *)
  check f_WriteString "FORM" ;;
  (* total bytes *)
  check f_Write (be32 (int32 0)) ;;
  (* header *)
  check f_WriteString "AIFF" ;;
  ret None.

Definition writeCommonChunk : M (option error) :=
  let sr := [64; 14; 172; 68; 0; 0; 0; 0; 0; 0] in (* 0x40 0x0e 0xac 0x44 ... *)
  (* header *)
  check f_WriteString "COMM" ;;
  (* size *)
  check f_Write (be32 (int32 18)) ;;
  (* channels *)
  check f_Write (be16 (int16 1)) ;;
  (* number of samples *)
  check f_Write (be32 (int32 0)) ;;
  (* bits per sample *)
  check f_Write (be16 (int16 32)) ;;
  (* 80-bit sample rate 44100 *)
  check f_Write sr ;;
  ret None.

Definition writeSoundChunk : M (option error) :=
  (* header *)
  check f_WriteString "SSND" ;;
  (* size *)
  check f_Write (be32 (int32 0)) ;;
  (* offset *)
  check f_Write (be32 (int32 0)) ;;
  (* block *)
  check f_Write (be32 (int32 0)) ;;
  ret None.

(** ** The deferred closures *)

(** What a closure logs after its call: [flog.Error] with the error, or
    [flog.Success]. *)
Definition status (r : option error) (failed ok : string) : event :=
  match r with
  | Some e => EvLog Error (failed ++ e)%string
  | None => EvLog Success ok
  end.

Definition report (r : option error) (failed ok : string) : M unit :=
  emit (status r failed ok).

(** Lines 54-62. *)
Definition close_file : M unit :=
  name <- get outFile ;;
  flog Info ("closing " ++ name)%string ;;
  r <- call EvFileClose (fclose_res E) ;;
  report r ("failed to close " ++ name ++ " : ")%string
           ("successfully closed " ++ name)%string.

(** Lines 92-110.  Every result is assigned to the one [err]; the test
    after the last write sees what is left in it. *)
Definition fill_sizes : M unit :=
  flog Info "filling in missing sizes" ;;
  n <- get numSamples ;;
  let totalBytes := int (50 * n) in
  r <- f_Seek 4 ;; set_err r ;;
  r <- f_Write (be32 (int32 totalBytes)) ;; set_err r ;;
  r <- f_Seek 22 ;; set_err r ;;
  r <- f_Write (be32 (int32 n)) ;; set_err r ;;
  r <- f_Seek 42 ;; set_err r ;;
  r <- f_Write (be32 (int32 (int (int (4 * n) + 8)))) ;; set_err r ;;
  e <- get err ;;
  report e "failed to fill in missing sizes : "
           "successfully filled in missing sizes.".

(** Lines 120-128. *)
Definition terminate_portaudio : M unit :=
  flog Info "terminating portaudio" ;;
  r <- call EvTerminate (terminate_res E) ;;
  report r "failed to terminate portaudio : "
           "successfully terminated port audio".

(** Lines 141-149. *)
Definition close_stream : M unit :=
  flog Info "closing audio stream" ;;
  r <- call EvStreamClose (sclose_res E) ;;
  report r "failed to close audio stream : "
           "successfully closed audio stream".

(** Lines 157-165. *)
Definition stop_stream : M unit :=
  flog Info "stopping audio stream" ;;
  r <- call EvStreamStop (stop_res E) ;;
  report r "failed to stop audio stream : "
           "successfully stopped audio stream".

Definition run_closure (d : deferred) : M unit :=
  match d with
  | DCloseFile => close_file
  | DFillSizes => fill_sizes
  | DTerminate => terminate_portaudio
  | DCloseStream => close_stream
  | DStopStream => stop_stream
  end.

(** When a function returns, its deferred calls run, last registered
    first. *)
Fixpoint run_closures (ds : list deferred) : M unit :=
  match ds with
  | [] => ret tt
  | d :: ds' => run_closure d ;; run_closures ds'
  end.

Definition run_deferred : M unit := fun w => run_closures (defers w) w.

(** ** The capture loop *)

(** [stream.Read()] fills [in] in place: the slice keeps its length. *)
Definition refill (old fresh : list Z) : list Z :=
  firstn (length old) (fresh ++ skipn (length fresh) old).

(** The [default] branch of the [select], lines 187-194. *)
Definition tick (r : read_res) : M unit :=
  emit EvStreamRead ;;
  b <- get in_buf ;;
  match r with
  | ReadOk fresh => set_in (refill b fresh)
  | ReadErr touched e =>
      match touched with
      | Some fresh => set_in (refill b fresh)
      | None => ret tt
      end ;;
      flog Error ("failed to read from audio stream : " ++ e)%string
  end ;;
  b <- get in_buf ;;
  r <- f_Write (be32s b) ;;
  match r with
  | Some e =>
      flog Error ("failed to write audio data to file as binary : " ++ e)%string
  | None => ret tt
  end ;;
  n <- get numSamples ;;
  set_numSamples (int (n + Z.of_nat (length b))).

(** How control leaves the labelled loop. *)
Inductive exit := Break | Return.

(** [recording: for { select { ... } }]: a pass through [default] for each
    tick of the session, then the receive that ends the loop, [break
    recording] on [done] and [return] on [stop].  Which case a [select]
    takes is the environment's choice.  A run in which neither channel ever
    fires does not return and has no final state; the sessions described
    here are the ones that end. *)
Fixpoint recording (ts : list read_res) (last : channel) : M exit :=
  match ts with
  | r :: ts' => tick r ;; recording ts' last
  | [] =>
      emit (EvRecv last) ;;
      match last with
      | ChDone => ret Break
      | ChStop => ret Return
      end
  end.

(** ** Run *)

Definition usage : M unit := emit EvUsage.

(** The body of [Run], lines 38-196; what it returns is how it was left,
    which makes no difference to the caller. *)
Definition Run_body : M exit :=
  name <- get outFile ;;
  (if String.eqb name ""
   then set_outFile (fmt_d (now_unix E) ++ ".aiff")%string
   else set_outFile (name ++ ".aiff")%string) ;;
  emit EvNotify ;;
  name <- get outFile ;;
  r <- os_Create name ;; set_err r ;;
  match r with
  | Some e =>
      flog Error ("failed to create " ++ name ++ " : " ++ e)%string ;;
      usage ;; ret Return
  | None =>
  defer DCloseFile ;;
  flog Success ("successfully created " ++ name)%string ;;
  r <- writeFormChunk ;;
  match r with
  | Some e =>
      flog Error ("failed to write form chunk : " ++ e)%string ;;
      usage ;; ret Return
  | None =>
  flog Success "successfully wrote form chunk" ;;
  r <- writeCommonChunk ;;
  match r with
  | Some e =>
      flog Error ("failed to write common chunk : " ++ e)%string ;;
      usage ;; ret Return
  | None =>
  flog Success "successfully wrote common chunk" ;;
  r <- writeSoundChunk ;;
  match r with
  | Some e =>
      flog Error ("failed to write sound chunk : " ++ e)%string ;;
      usage ;; ret Return
  | None =>
  flog Success "successfully wrote sound chunk" ;;
  set_numSamples 0 ;;
  defer DFillSizes ;;
  r <- call EvInitialize (init_res E) ;;
  match r with
  | Some e =>
      flog Error ("failed to initialize portaudio : " ++ e)%string ;;
      usage ;; ret Return
  | None =>
  flog Success "successfully initialized portaudio" ;;
  defer DTerminate ;;
  set_in (repeat 0 64) ;;
  b <- get in_buf ;;
  r <- call (EvOpenStream (length b)) (open_res E) ;; set_err r ;;
  match r with
  | Some e =>
      flog Error ("failed to open audio stream : " ++ e)%string ;;
      usage ;; ret Return
  | None =>
  flog Success "successfully opened audio stream" ;;
  defer DCloseStream ;;
  r <- call EvStreamStart (start_res E) ;;
  match r with
  | Some e =>
      flog Error ("failed to start audio stream : " ++ e)%string ;;
      usage ;; ret Return
  | None =>
  defer DStopStream ;;
  flog Success "successfully started capturing audio" ;;
  flog Info "press enter to stop recording" ;;
  x <- recording (ticks E) (ending E) ;;
  match x with
  | Break => ret Break     (* falls off the end of the function *)
  | Return => ret Return
  end
  end end end end end end end.

Definition Run : M exit := x <- Run_body ;; run_deferred ;; ret x.

(** The state in which the body of [Run] is left, before the deferred
    calls run. *)
Definition at_return : world := snd (Run_body (init_world (flag_out E))).

(** A session: [Run] on the command as the flag parser left it. *)
Definition session : world := snd (Run (init_world (flag_out E))).

End Session.

(** Unfolding a computation once it is applied to a state. *)
Arguments ret {A} a w /.
Arguments bind {A B} m k w /.
Arguments get {A} proj w /.
Arguments emit ev w /.
Arguments defer d w /.
Arguments set_outFile s w /.
Arguments set_err e w /.
Arguments set_numSamples n w /.
Arguments set_in b w /.
Arguments flog l msg w /.
Arguments usage w /.
Arguments call ev r w /.
Arguments report r failed ok w /.
Arguments f_Write E bs w /.
Arguments f_WriteString E s w /.
Arguments f_Seek E off w /.
Arguments os_Create E name w /.
Arguments close_file E w /.
Arguments fill_sizes E w /.
Arguments terminate_portaudio E w /.
Arguments close_stream E w /.
Arguments stop_stream E w /.
Arguments run_closure E d w /.
Arguments run_deferred E w /.
Arguments tick E r w /.
Arguments writeFormChunk E w /.
Arguments writeCommonChunk E w /.
Arguments writeSoundChunk E w /.

(** ** What is read off a trace *)

Definition count (p : event -> bool) (tr : list event) : nat :=
  length (filter p tr).

(** The line every run of the size-patch closure starts with. *)
Definition is_fill (ev : event) : bool :=
  match ev with
  | EvLog Info msg => String.eqb msg "filling in missing sizes"
  | _ => false
  end.

Definition is_close (ev : event) : bool :=
  match ev with EvFileClose => true | _ => false end.

Definition is_read (ev : event) : bool :=
  match ev with EvStreamRead => true | _ => false end.

(** The calls of a trace: everything but the log lines. *)
Definition is_call (ev : event) : bool :=
  match ev with EvLog _ _ => false | _ => true end.

Definition fill_runs (tr : list event) : nat := count is_fill tr.
Definition closes (tr : list event) : nat := count is_close tr.
Definition reads (tr : list event) : nat := count is_read tr.

(** ** Conditions on the environment *)

Definition wrote (r : wres) : bool :=
  match r with WOk => true | WErr _ _ => false end.

Definition succeeded (r : option error) : bool :=
  match r with None => true | Some _ => false end.

(** The thirteen writes of the three header chunks all go through. *)
Definition header_ok (E : env) : bool :=
  forallb (fun k => wrote (write_res E k)) (seq 0 13).

(** Everything up to the capture loop goes through. *)
Definition setup_ok (E : env) : bool :=
  succeeded (create_res E) && header_ok E && succeeded (init_res E)
  && succeeded (open_res E) && succeeded (start_res E).

(** An environment in which nothing fails. *)
Definition calm (out : string) (now : Z) (ts : list read_res) (c : channel)
  : env :=
  {| flag_out := out; now_unix := now; create_res := None;
     write_res := fun _ => WOk; seek_res := fun _ => None;
     fclose_res := None; init_res := None; terminate_res := None;
     open_res := None; start_res := None; stop_res := None;
     sclose_res := None; ticks := ts; ending := c |}.

(** The events of one pass through [default]. *)
Definition tick_event (ev : event) : bool :=
  match ev with
  | EvStreamRead | EvWrite _ _ | EvLog Error _ => true
  | _ => false
  end.

(** A trace that ends with the event [x]. *)
Definition ends_with (x : event) (tr : list event) : Prop :=
  exists pre, tr = pre ++ [x].

(** The 54 bytes of the three chunks as they are first written, sizes
    still zero. *)
Definition header_bytes : list Z :=
  bytes_of_string "FORM" ++ be32 0 ++ bytes_of_string "AIFF"
  ++ bytes_of_string "COMM" ++ be32 18 ++ be16 1 ++ be32 0 ++ be16 32
  ++ [64; 14; 172; 68; 0; 0; 0; 0; 0; 0]
  ++ bytes_of_string "SSND" ++ be32 0 ++ be32 0 ++ be32 0.

(** The deferred calls registered when the body is left, read off the
    results of the environment. *)
Definition registered (E : env) : list deferred :=
  if negb (succeeded (create_res E)) then []
  else if negb (header_ok E) then [DCloseFile]
  else if negb (succeeded (init_res E)) then [DFillSizes; DCloseFile]
  else if negb (succeeded (open_res E)) then [DTerminate; DFillSizes; DCloseFile]
  else if negb (succeeded (start_res E))
       then [DCloseStream; DTerminate; DFillSizes; DCloseFile]
  else [DStopStream; DCloseStream; DTerminate; DFillSizes; DCloseFile].

(** The error a write returns. *)
Definition error_of (r : wres) : option error :=
  match r with WOk => None | WErr _ e => Some e end.

(** The trace of the five deferred closures running one after the other:
    [name] is the file name, [n] the sample counter, [p1], [p2], [p3] the
    offsets the three patches land at and [r] what is left in [err] after
    the last of them. *)
Definition teardown_events (E : env) (name : string) (n : Z)
    (p1 p2 p3 : nat) (r : option error) : list event :=
  [ EvLog Info "stopping audio stream"; EvStreamStop;
    status (stop_res E) "failed to stop audio stream : "
                        "successfully stopped audio stream";
    EvLog Info "closing audio stream"; EvStreamClose;
    status (sclose_res E) "failed to close audio stream : "
                          "successfully closed audio stream";
    EvLog Info "terminating portaudio"; EvTerminate;
    status (terminate_res E) "failed to terminate portaudio : "
                             "successfully terminated port audio";
    EvLog Info "filling in missing sizes";
    EvSeek 4; EvWrite p1 (be32 (int32 (int (50 * n))));
    EvSeek 22; EvWrite p2 (be32 (int32 n));
    EvSeek 42; EvWrite p3 (be32 (int32 (int (int (4 * n) + 8))));
    status r "failed to fill in missing sizes : "
             "successfully filled in missing sizes.";
    EvLog Info ("closing " ++ name)%string; EvFileClose;
    status (fclose_res E) ("failed to close " ++ name ++ " : ")%string
                          ("successfully closed " ++ name)%string ].

(** Which closure a registered call is. *)
Definition is_DFillSizes (d : deferred) : bool :=
  match d with DFillSizes => true | _ => false end.

Definition is_DCloseFile (d : deferred) : bool :=
  match d with DCloseFile => true | _ => false end.

(** The bytes a patch may touch. *)
Definition patched (i : nat) : Prop :=
  (4 <= i < 8)%nat \/ (22 <= i < 26)%nat \/ (42 <= i < 46)%nat.

(** The file a stack of closures leaves is the file its size patches
    leave, and they start from the file as they found it, when nothing
    before them in the stack is another run of the patches. *)
Definition patches_decide E (ds : list deferred) : Prop :=
  forall w, exists w1,
    f_data (snd (run_closures E ds w)) = f_data (snd (fill_sizes E w1)) /\
    f_data w1 = f_data w /\ n_writes w1 = n_writes w /\
    n_seeks w1 = n_seeks w /\ numSamples w1 = numSamples w.

(** ** Sessions that are run *)

(** The part of a trace from the first event that satisfies [p] on. *)
Fixpoint since (p : event -> bool) (tr : list event) : list event :=
  match tr with
  | [] => []
  | ev :: tr' => if p ev then tr else since p tr'
  end.

(** The receive from [stop]. *)
Definition is_signal (ev : event) : bool :=
  match ev with EvRecv ChStop => true | _ => false end.

(** A take of [n] samples of which nothing but the header reached the
    file, at the point where the size patches start. *)
Definition patch_world (n : Z) : world :=
  {| f_data := header_bytes; f_pos := 54; n_writes := 13; n_seeks := 0;
     trace := []; defers := [DCloseFile]; outFile := "take.aiff";
     err := None; numSamples := n; in_buf := repeat 0 64 |}.

(** Three ticks, the second with a failed read, then a line on stdin. *)
Definition three_ticks : env :=
  calm "" 1700000000
    [ReadOk [1; -1]; ReadErr None "input overflowed"; ReadOk [2]] ChDone.

(** One tick, then a signal. *)
Definition signal_after_one_tick : env := calm "" 0 [ReadOk []] ChStop.

(** The first write of the form chunk fails. *)
Definition header_write_fails : env :=
  {| flag_out := "take"; now_unix := 0; create_res := None;
     write_res := fun k => if (k =? 0)%nat
                           then WErr 0 "no space left on device" else WOk;
     seek_res := fun _ => None;
     fclose_res := None; init_res := None; terminate_res := None;
     open_res := None; start_res := None; stop_res := None;
     sclose_res := None; ticks := []; ending := ChDone |}.

(** One tick, then a line on stdin; the first of the three patch writes
    (the fifteenth write on the file) fails. *)
Definition patch_write_fails : env :=
  {| flag_out := "take"; now_unix := 0; create_res := None;
     write_res := fun k => if (k =? 14)%nat
                           then WErr 0 "no space left on device" else WOk;
     seek_res := fun _ => None;
     fclose_res := None; init_res := None; terminate_res := None;
     open_res := None; start_res := None; stop_res := None;
     sclose_res := None; ticks := [ReadOk []]; ending := ChDone |}.

(** ** Further readings of the environment and of traces *)

(** Of [count] writes from the [start]-th on: how many go through before
    one fails, and the error of that one; [None] when none fails. *)
Fixpoint first_failure (res : nat -> wres) (start count : nat)
  : option (nat * error) :=
  match count with
  | O => None
  | S c =>
      match res start with
      | WErr _ e => Some (O, e)
      | WOk =>
          match first_failure res (S start) c with
          | Some (j, e) => Some (S j, e)
          | None => None
          end
      end
  end.

(** The writes a chunk writer makes when it has [total] to make. *)
Definition attempts (f : option (nat * error)) (total : nat) : nat :=
  match f with Some (j, _) => S j | None => total end.

(** [in] after a call of [stream.Read()]. *)
Definition after_read (b : list Z) (r : read_res) : list Z :=
  match r with
  | ReadOk fresh => refill b fresh
  | ReadErr (Some fresh) _ => refill b fresh
  | ReadErr None _ => b
  end.

(** The samples the loop hands to [binary.Write], tick after tick, starting
    with [b] in [in]. *)
Fixpoint frames (b : list Z) (ts : list read_res) : list Z :=
  match ts with
  | [] => []
  | r :: ts' => after_read b r ++ frames (after_read b r) ts'
  end.

(** Reading big-endian int32 samples back, four bytes at a time. *)
Fixpoint decode32s (bs : list Z) : list Z :=
  match bs with
  | b0 :: b1 :: b2 :: b3 :: rest => be_int32 [b0; b1; b2; b3] :: decode32s rest
  | _ => []
  end.

(** The header with the three sizes computed from a counter of [n]. *)
Definition patched_header (n : Z) : list Z :=
  bytes_of_string "FORM" ++ be32 (int32 (int (50 * n)))
  ++ bytes_of_string "AIFF"
  ++ bytes_of_string "COMM" ++ be32 18 ++ be16 1 ++ be32 (int32 n) ++ be16 32
  ++ [64; 14; 172; 68; 0; 0; 0; 0; 0; 0]
  ++ bytes_of_string "SSND" ++ be32 (int32 (int (int (4 * n) + 8)))
  ++ be32 0 ++ be32 0.

Definition is_usage (ev : event) : bool :=
  match ev with EvUsage => true | _ => false end.

Definition is_stream_stop (ev : event) : bool :=
  match ev with EvStreamStop => true | _ => false end.

Definition is_stream_close (ev : event) : bool :=
  match ev with EvStreamClose => true | _ => false end.

Definition is_terminate (ev : event) : bool :=
  match ev with EvTerminate => true | _ => false end.

Definition is_DStopStream (d : deferred) : bool :=
  match d with DStopStream => true | _ => false end.

Definition is_DCloseStream (d : deferred) : bool :=
  match d with DCloseStream => true | _ => false end.

Definition is_DTerminate (d : deferred) : bool :=
  match d with DTerminate => true | _ => false end.

(** Every write from the fourteenth on, the first of the loop, fails after
    ten bytes. *)
Definition disk_fills_up : env :=
  {| flag_out := "take"; now_unix := 0; create_res := None;
     write_res := fun k => if (k <? 13)%nat then WOk
                           else WErr 10 "no space left on device";
     seek_res := fun _ => None;
     fclose_res := None; init_res := None; terminate_res := None;
     open_res := None; start_res := None; stop_res := None;
     sclose_res := None; ticks := [ReadOk [7]]; ending := ChDone |}.

(** The second of the three seeks of the size patches fails. *)
Definition second_seek_fails : env :=
  {| flag_out := "take"; now_unix := 0; create_res := None;
     write_res := fun _ => WOk;
     seek_res := fun k => if (k =? 1)%nat then Some "invalid argument"
                          else None;
     fclose_res := None; init_res := None; terminate_res := None;
     open_res := None; start_res := None; stop_res := None;
     sclose_res := None; ticks := [ReadOk [7]]; ending := ChDone |}.

Definition is_initialize (ev : event) : bool :=
  match ev with EvInitialize => true | _ => false end.

Definition is_open_stream (ev : event) : bool :=
  match ev with EvOpenStream _ => true | _ => false end.

Definition is_stream_start (ev : event) : bool :=
  match ev with EvStreamStart => true | _ => false end.

(** The events that mark the five deferred closures: the three portaudio
    releases, the line the size patches start with, and [f.Close()]. *)
Definition is_release (ev : event) : bool :=
  is_stream_stop ev || is_stream_close ev || is_terminate ev
  || is_fill ev || is_close ev.

Definition release_of (d : deferred) : event :=
  match d with
  | DStopStream => EvStreamStop
  | DCloseStream => EvStreamClose
  | DTerminate => EvTerminate
  | DFillSizes => EvLog Info "filling in missing sizes"
  | DCloseFile => EvFileClose
  end.

(** The receive from [done]. *)
Definition is_done (ev : event) : bool :=
  match ev with EvRecv ChDone => true | _ => false end.

(** One tick, then a line on stdin; [stream.Stop()] fails, and so does the
    second of the three patch writes (the sixteenth write on the file). *)
Definition stop_and_patch_fail : env :=
  {| flag_out := "take"; now_unix := 0; create_res := None;
     write_res := fun k => if (k =? 15)%nat
                           then WErr 0 "input/output error" else WOk;
     seek_res := fun _ => None;
     fclose_res := None; init_res := None; terminate_res := None;
     open_res := None; start_res := None;
     stop_res := Some "stream is stopped";
     sclose_res := None; ticks := [ReadOk []]; ending := ChDone |}.

(** * Machine integers and the encoding *)

Lemma wrap_small bits x :
  0 < bits -> - 2 ^ (bits - 1) <= x < 2 ^ (bits - 1) -> wrap bits x = x.
Proof.
  intros Hb Hx. unfold wrap.
  assert (Hp : 2 ^ bits = 2 * 2 ^ (bits - 1)).
  { replace bits with (Z.succ (bits - 1)) at 1 by lia.
    rewrite Z.pow_succ_r by lia. reflexivity. }
  rewrite Z.mod_small by lia. lia.
Qed.

Lemma int_small x : - 2 ^ 63 <= x <= max_int -> int x = x.
Proof. unfold max_int; intros; apply wrap_small; simpl (64 - 1); lia. Qed.

Lemma int32_small x : - 2 ^ 31 <= x <= max_int32 -> int32 x = x.
Proof. unfold max_int32; intros; apply wrap_small; simpl (32 - 1); lia. Qed.

Lemma wrap_mod bits x : 0 < bits -> wrap bits x mod 2 ^ bits = x mod 2 ^ bits.
Proof.
  intros Hb. unfold wrap.
  assert (Hp : 0 < 2 ^ bits) by (apply Z.pow_pos_nonneg; lia).
  rewrite <- Zminus_mod_idemp_l, Z.mod_mod by lia.
  rewrite Zminus_mod_idemp_l. f_equal. lia.
Qed.

Lemma wrap_eq_mod bits x y :
  0 < bits -> x mod 2 ^ bits = y mod 2 ^ bits -> wrap bits x = wrap bits y.
Proof.
  intros Hb H. unfold wrap.
  rewrite <- (Zplus_mod_idemp_l x), <- (Zplus_mod_idemp_l y), H.
  reflexivity.
Qed.

(** Converting an [int] to [int32] keeps the low 32 bits, whether or not
    the [int] arithmetic wrapped before. *)
Lemma int32_int x : int32 (int x) = int32 x.
Proof.
  unfold int32, int. apply wrap_eq_mod; [lia|].
  pose proof (wrap_mod 64 x ltac:(lia)) as H.
  change (2 ^ 64) with (2 ^ 32 * 2 ^ 32) in H.
  apply (f_equal (fun v => v mod 2 ^ 32)) in H.
  rewrite !Z.rem_mul_r in H by lia.
  rewrite !(Z.mul_comm (2 ^ 32)), !Z.mod_add, !Z.mod_mod in H by lia.
  exact H.
Qed.

Lemma byte_of_spec v k : 0 <= k -> byte_of v k = (v / 2 ^ k) mod 256.
Proof.
  intros Hk. unfold byte_of. rewrite Z.shiftr_div_pow2 by lia.
  change 255 with (Z.ones 8). rewrite Z.land_ones by lia. reflexivity.
Qed.

Lemma be_unsigned_be32 v : be_unsigned (be32 v) = v mod 2 ^ 32.
Proof.
  unfold be_unsigned, be32. cbn [fold_left].
  rewrite !byte_of_spec by lia.
  change (2 ^ 0) with 1. rewrite Z.div_1_r.
  change (2 ^ 8) with 256; change (2 ^ 16) with (256 * 256);
    change (2 ^ 24) with (256 * (256 * 256)).
  replace (2 ^ 32) with (256 * (256 * (256 * 256))) by reflexivity.
  rewrite (Z.rem_mul_r v 256 (256 * (256 * 256))) by lia.
  rewrite (Z.rem_mul_r (v / 256) 256 (256 * 256)) by lia.
  rewrite (Z.rem_mul_r (v / 256 / 256) 256 256) by lia.
  rewrite <- !Z.div_div by lia.
  ring.
Qed.

(** Reading a patched field back gives the [int32] that was written. *)
Lemma be_int32_be32 v : be_int32 (be32 v) = int32 v.
Proof.
  unfold be_int32. rewrite be_unsigned_be32.
  unfold int32. apply wrap_eq_mod; [lia|]. apply Z.mod_mod. lia.
Qed.

Lemma be32_length v : length (be32 v) = 4%nat.
Proof. reflexivity. Qed.

(** Arithmetic and encodings stay folded while a run is unfolded. *)
Arguments wrap : simpl never.
Arguments int : simpl never.
Arguments int32 : simpl never.
Arguments int16 : simpl never.
Arguments be32 : simpl never.
Arguments be16 : simpl never.
Arguments be32s : simpl never.
Arguments bytes_of_string : simpl never.
Arguments fmt_d : simpl never.
Arguments write_at : simpl never.
Arguments refill : simpl never.

(** * Traces *)

Lemma count_app p a b : count p (a ++ b) = (count p a + count p b)%nat.
Proof. unfold count. rewrite filter_app, length_app. reflexivity. Qed.

Lemma is_fill_status r a b : is_fill (status r a b) = false.
Proof. destruct r; reflexivity. Qed.

Lemma is_close_status r a b : is_close (status r a b) = false.
Proof. destruct r; reflexivity. Qed.

Lemma is_read_status r a b : is_read (status r a b) = false.
Proof. destruct r; reflexivity. Qed.

Lemma is_call_status r a b : is_call (status r a b) = false.
Proof. destruct r; reflexivity. Qed.

(** * The capture loop *)

Lemma int_int_add a b : int (int a + b) = int (a + b).
Proof.
  unfold int. apply wrap_eq_mod; [lia|].
  rewrite <- Zplus_mod_idemp_l, wrap_mod, Zplus_mod_idemp_l by lia.
  reflexivity.
Qed.

Lemma refill_length old fresh : length (refill old fresh) = length old.
Proof.
  unfold refill. rewrite length_firstn, length_app, length_skipn. lia.
Qed.

(** What every pass through [default] does, whatever the read and the
    write return. *)
Lemma tick_spec E r w :
  let w' := snd (tick E r w) in
  defers w' = defers w /\ outFile w' = outFile w /\
  n_seeks w' = n_seeks w /\ n_writes w' = S (n_writes w) /\
  length (in_buf w') = length (in_buf w) /\
  numSamples w' = int (numSamples w + Z.of_nat (length (in_buf w))) /\
  exists lt, trace w' = trace w ++ EvStreamRead :: lt /\
             reads lt = 0%nat /\ forallb tick_event lt = true.
Proof.
  destruct r as [fresh | [fresh|] e]; cbn;
    destruct (write_res E (n_writes w)) as [|k e']; cbn;
    rewrite ?refill_length; repeat split; try reflexivity;
    rewrite <- ?app_assoc; cbn; eexists; (split; [reflexivity|]);
    split; reflexivity.
Qed.

Lemma recording_cons E r ts c w :
  recording E (r :: ts) c w = recording E ts c (snd (tick E r w)).
Proof.
  cbn [recording]. unfold bind at 1. destruct (tick E r w). reflexivity.
Qed.

Lemma count_none p q l :
  (forall ev, q ev = true -> p ev = false) ->
  forallb q l = true -> count p l = 0%nat.
Proof.
  intros Hpq. unfold count. induction l as [|ev l IH]; cbn; [reflexivity|].
  intros H. apply andb_prop in H as [Hq Hl]. rewrite (Hpq _ Hq). auto.
Qed.

Lemma int_idem x : int (int x) = int x.
Proof.
  pose proof (int_int_add x 0) as H. rewrite !Z.add_0_r in H. exact H.
Qed.

(** The loop as a whole: one read per tick, the counter advanced by the
    length of [in] per tick, and nothing else than ticks until the receive
    that ends it. *)
Lemma recording_spec E ts c : forall w,
  int (numSamples w) = numSamples w ->
  let w' := snd (recording E ts c w) in
  fst (recording E ts c w)
    = match c with ChDone => Break | ChStop => Return end /\
  defers w' = defers w /\ outFile w' = outFile w /\
  n_seeks w' = n_seeks w /\
  n_writes w' = (n_writes w + length ts)%nat /\
  length (in_buf w') = length (in_buf w) /\
  numSamples w'
    = int (numSamples w + Z.of_nat (length (in_buf w)) * Z.of_nat (length ts)) /\
  exists lt, trace w' = trace w ++ lt ++ [EvRecv c] /\
             reads lt = length ts /\ forallb tick_event lt = true.
Proof.
  induction ts as [|r ts IH]; intros w Hn.
  - assert (Hw : snd (recording E [] c w) = snd (emit (EvRecv c) w))
      by (destruct c; reflexivity).
    cbv zeta. rewrite Hw. cbn.
    split; [destruct c; reflexivity|].
    rewrite Z.mul_0_r, Z.add_0_r, Hn, Nat.add_0_r.
    repeat split. exists []. repeat split.
  - rewrite recording_cons. cbv zeta.
    destruct (tick_spec E r w) as (Hd & Ho & Hs & Hw & Hl & Hc & lt & Ht & Hr & Hf).
    destruct (IH (snd (tick E r w))) as (Hx & Hd' & Ho' & Hs' & Hw' & Hl' & Hc' & lt' & Ht' & Hr' & Hf').
    { rewrite Hc. apply int_idem. }
    split; [exact Hx|].
    rewrite Hd in Hd'; rewrite Ho in Ho'; rewrite Hs in Hs';
      rewrite Hw in Hw'; rewrite Hl in Hl'; rewrite Hl, Hc in Hc'.
    rewrite Hd', Ho', Hs', Hw', Hl', Hc'.
    repeat split.
    + cbn [length]. lia.
    + rewrite int_int_add. f_equal. cbn [length]. lia.
    + exists (EvStreamRead :: lt ++ lt'). rewrite Ht', Ht.
      split; [|split].
      * rewrite <- !app_assoc. cbn [app]. rewrite <- !app_assoc. reflexivity.
      * change (EvStreamRead :: lt ++ lt') with ([EvStreamRead] ++ lt ++ lt').
        unfold reads in *. rewrite !count_app, Hr, Hr'. reflexivity.
      * cbn. rewrite forallb_app, Hf, Hf'. reflexivity.
Qed.

(** * Writes on the file *)

Lemma write_at_end bs data : write_at (length data) bs data = data ++ bs.
Proof.
  unfold write_at. destruct bs as [|b bs]; [now rewrite app_nil_r|].
  rewrite firstn_all, Nat.sub_diag, skipn_all2 by lia.
  cbn [repeat app]. now rewrite app_nil_r.
Qed.

(** A write that stays inside the file replaces bytes and keeps the
    length. *)
Lemma write_at_inside pos bs data :
  (pos + length bs <= length data)%nat ->
  write_at pos bs data
    = firstn pos data ++ bs ++ skipn (pos + length bs) data.
Proof.
  intros H. unfold write_at. destruct bs as [|b bs].
  - cbn [app length]. rewrite Nat.add_0_r. symmetry. apply firstn_skipn.
  - replace (pos - length data)%nat with 0%nat by lia. reflexivity.
Qed.

Lemma write_at_inside_length pos bs data :
  (pos + length bs <= length data)%nat ->
  length (write_at pos bs data) = length data.
Proof.
  intros H. rewrite write_at_inside by exact H.
  rewrite !length_app, length_firstn, length_skipn. lia.
Qed.

Lemma nth_error_write_at pos bs data i :
  (pos + length bs <= length data)%nat ->
  nth_error (write_at pos bs data) i
    = if (pos <=? i)%nat && (i <? pos + length bs)%nat
      then nth_error bs (i - pos)
      else nth_error data i.
Proof.
  intros H. rewrite write_at_inside by exact H.
  assert (Hf : length (firstn pos data) = pos) by (rewrite length_firstn; lia).
  destruct (Nat.leb_spec pos i) as [Hle|Hlt]; cbn [andb].
  - rewrite nth_error_app2 by lia. rewrite Hf.
    destruct (Nat.ltb_spec i (pos + length bs)) as [Hin|Hout].
    + apply nth_error_app1. lia.
    + rewrite nth_error_app2 by lia. rewrite nth_error_skipn.
      f_equal. lia.
  - rewrite nth_error_app1 by lia. rewrite nth_error_firstn.
    apply Nat.ltb_lt in Hlt. now rewrite Hlt.
Qed.

(** While the cursor is at the end of the file, a pass through [default]
    appends, and leaves the cursor at the end. *)
Lemma tick_appends E r w :
  f_pos w = length (f_data w) ->
  let w' := snd (tick E r w) in
  f_pos w' = length (f_data w') /\
  exists tail, f_data w' = f_data w ++ tail.
Proof.
  intros Hpos.
  destruct r as [fresh | [fresh|] e]; cbn;
    destruct (write_res E (n_writes w)) as [|k e']; cbn;
    rewrite Hpos, write_at_end, length_app; eauto.
Qed.

Lemma recording_appends E ts c : forall w,
  f_pos w = length (f_data w) ->
  let w' := snd (recording E ts c w) in
  f_pos w' = length (f_data w') /\
  exists tail, f_data w' = f_data w ++ tail.
Proof.
  induction ts as [|r ts IH]; intros w Hpos.
  - assert (Hw : snd (recording E [] c w) = snd (emit (EvRecv c) w))
      by (destruct c; reflexivity).
    cbv zeta. rewrite Hw. cbn. split; [exact Hpos|].
    exists []. now rewrite app_nil_r.
  - rewrite recording_cons. cbv zeta.
    destruct (tick_appends E r w Hpos) as (Hp & t & Ht).
    destruct (IH _ Hp) as (Hp' & t' & Ht').
    split; [exact Hp'|]. exists (t ++ t').
    rewrite Ht', Ht, app_assoc. reflexivity.
Qed.

(** * The body of Run *)

(** The body is unfolded call by call; where the next step depends on a
    result of the environment, both results are followed. *)
Ltac run :=
  cbn -[String.eqb append recording Z.mul Z.add Z.of_nat Nat.add Nat.mul].

Ltac closed_index k :=
  lazymatch k with
  | context [n_writes] => fail
  | _ => idtac
  end.

Ltac split_result :=
  match goal with
  | |- context [if String.eqb ?a ?b then _ else _] =>
      destruct (String.eqb a b) eqn:?
  | |- context [match create_res ?E with _ => _ end] =>
      destruct (create_res E) eqn:?
  | |- context [match write_res ?E ?k with _ => _ end] =>
      closed_index k; destruct (write_res E k) eqn:?
  | |- context [match init_res ?E with _ => _ end] =>
      destruct (init_res E) eqn:?
  | |- context [match open_res ?E with _ => _ end] =>
      destruct (open_res E) eqn:?
  | |- context [match start_res ?E with _ => _ end] =>
      destruct (start_res E) eqn:?
  end.

Lemma ends_with_cons x ev tr : ends_with x tr -> ends_with x (ev :: tr).
Proof. intros [pre ->]. exists (ev :: pre). reflexivity. Qed.

Lemma ends_with_last x tr : ends_with x (tr ++ [x]).
Proof. exists tr. reflexivity. Qed.

(** At the loop, [recording_spec] and [recording_appends] take over. *)
Ltac through_loop :=
  match goal with
  | |- context [recording ?E ?ts ?c ?W] =>
      let H := fresh "Hloop" in
      let H' := fresh "Hfile" in
      let x := fresh "x" in
      let w' := fresh "w'" in
      pose proof (recording_spec E ts c W eq_refl) as H;
      pose proof (recording_appends E ts c W eq_refl) as H';
      destruct (recording E ts c W) as [x w'];
      cbn -[String.eqb append Z.mul Z.add Z.of_nat write_at] in H, H';
      destruct H as (-> & Hdefers & HoutFile & Hseeks & Hwrites & Hlen
                     & Hcount & lt & Htrace & Hreads & Hticks);
      destruct H' as (Hpos & tail & Hdata);
      destruct c; run
  end.

Ltac body_cases :=
  unfold at_return, Run_body, registered, setup_ok, header_ok; run;
  repeat (split_result; run); try through_loop.

Lemma count_cons_false (p : event -> bool) ev l :
  p ev = false -> count p (ev :: l) = count p l.
Proof. unfold count. cbn. intros ->. reflexivity. Qed.

Lemma tick_event_not_fill ev : tick_event ev = true -> is_fill ev = false.
Proof. destruct ev as [[| |] ?| | | | | | | | | | | | | |]; cbn; congruence. Qed.

Lemma tick_event_not_close ev : tick_event ev = true -> is_close ev = false.
Proof. destruct ev as [[| |] ?| | | | | | | | | | | | | |]; cbn; congruence. Qed.

(** Counting in a trace that is explicit up to the events of the loop. *)
Ltac count_trace :=
  unfold reads, fill_runs, closes;
  repeat rewrite count_cons_false by reflexivity;
  rewrite ?count_app.

Ltac name_cases :=
  match goal with
  | H : String.eqb _ _ = true |- _ => apply String.eqb_eq in H
  | H : String.eqb _ _ = false |- _ => apply String.eqb_neq in H
  end.

(** The state in which the body of [Run] is left, for every environment. *)
Lemma at_return_spec E :
  let w := at_return E in
  defers w = registered E /\
  numSamples w = int (64 * Z.of_nat (reads (trace w))) /\
  reads (trace w) = (if setup_ok E then length (ticks E) else 0%nat) /\
  fill_runs (trace w) = 0%nat /\ closes (trace w) = 0%nat /\
  (setup_ok E = true ->
   ends_with (EvRecv (ending E)) (trace w) /\
   n_writes w = (13 + length (ticks E))%nat) /\
  (succeeded (create_res E) && header_ok E = true ->
   f_pos w = length (f_data w) /\
   exists samples, f_data w = header_bytes ++ samples) /\
  (flag_out E = "" -> outFile w = (fmt_d (now_unix E) ++ ".aiff")%string) /\
  (flag_out E <> "" -> outFile w = (flag_out E ++ ".aiff")%string) /\
  exists rest, trace w = EvNotify :: EvCreate (outFile w) :: rest.
Proof. 
  body_cases; name_cases.
  all: split; [first [reflexivity | assumption]|].
  all: split; [first [reflexivity
                     | rewrite Hcount, Htrace; count_trace; unfold count at 2;
                       cbn [filter is_read length];
                       fold (reads lt); rewrite Hreads; f_equal; lia]|].
  all: split; [first [reflexivity
                     | rewrite Htrace; count_trace; unfold count at 2;
                       cbn [filter is_read length];
                       fold (reads lt); rewrite Hreads; lia]|].
  all: split; [first [reflexivity
                     | rewrite Htrace; count_trace;
                       rewrite (count_none _ _ _ tick_event_not_fill Hticks);
                       reflexivity]|].
  all: split; [first [reflexivity
                     | rewrite Htrace; count_trace;
                       rewrite (count_none _ _ _ tick_event_not_close Hticks);
                       reflexivity]|].
  all: split; [first [discriminate
                     | intros _; split; [|exact Hwrites]; rewrite Htrace;
                       repeat apply ends_with_cons; apply ends_with_last]|].
  all: split; [first [discriminate
                     | intros _; split; [reflexivity|exists []; reflexivity]
                     | intros _; split; [exact Hpos|exists tail; exact Hdata]]|].
  all: split; [intros ?; first [reflexivity | contradiction | assumption]|].
  all: split; [intros ?; first [reflexivity | contradiction | assumption]|].
  all: first [eexists; reflexivity
             | rewrite Htrace, HoutFile; eexists; reflexivity].
Qed.

(** * The deferred calls *)

Lemma session_deferred E :
  session E = snd (run_closures E (defers (at_return E)) (at_return E)).
Proof.
  unfold session, at_return, Run. cbn [bind].
  destruct (Run_body E (init_world (flag_out E))) as [x w]. cbn.
  destruct (run_closures E (defers w) w). reflexivity.
Qed.

Lemma run_closures_cons E d ds w :
  run_closures E (d :: ds) w = run_closures E ds (snd (run_closure E d w)).
Proof.
  cbn [run_closures]. unfold bind at 1. destruct (run_closure E d w).
  reflexivity.
Qed.

Lemma count_cons_true (p : event -> bool) ev l :
  p ev = true -> count p (ev :: l) = S (count p l).
Proof. unfold count. cbn. intros ->. reflexivity. Qed.

Ltac count_status :=
  unfold reads, fill_runs, closes;
  repeat first
    [ rewrite count_cons_false
        by first [reflexivity | apply is_fill_status
                 | apply is_close_status | apply is_read_status]
    | rewrite count_cons_true by reflexivity ];
  try reflexivity.

(** Unfolding a closure on a state that is not known: only the plumbing
    of the monad and the fields of the state are reduced. *)
Ltac unfold_calls :=
  cbv beta iota zeta delta
    [run_closure close_file fill_sizes terminate_portaudio close_stream
     stop_stream report call flog emit get ret bind set_err f_Seek f_Write
     f_data f_pos n_writes n_seeks trace defers outFile err numSamples in_buf
     fst snd].

(** One deferred closure: what it adds to the trace, and what it leaves
    alone. *)
Lemma run_closure_spec E d w :
  let w' := snd (run_closure E d w) in
  numSamples w' = numSamples w /\ outFile w' = outFile w /\
  exists lt, trace w' = trace w ++ lt /\ reads lt = 0%nat /\
    fill_runs lt = (if is_DFillSizes d then 1 else 0)%nat /\
    closes lt = (if is_DCloseFile d then 1 else 0)%nat.
Proof.
  destruct w as [data pos nw ns tr ds out e n b].
  destruct d; unfold_calls.
  all: (split; [reflexivity|]); (split; [reflexivity|]).
  all: rewrite <- ?app_assoc; cbn [app]; eexists; (split; [reflexivity|]).
  all: repeat split; count_status.
Qed.

Lemma run_closures_spec E ds : forall w,
  let w' := snd (run_closures E ds w) in
  numSamples w' = numSamples w /\ outFile w' = outFile w /\
  exists lt, trace w' = trace w ++ lt /\ reads lt = 0%nat /\
    fill_runs lt = length (filter is_DFillSizes ds) /\
    closes lt = length (filter is_DCloseFile ds).
Proof.
  induction ds as [|d ds IH]; intros w.
  - cbn. repeat split. exists []. rewrite app_nil_r. repeat split.
  - rewrite run_closures_cons. cbv zeta.
    destruct (run_closure_spec E d w) as (Hn & Ho & lt & Ht & Hr & Hf & Hc).
    destruct (IH (snd (run_closure E d w)))
      as (Hn' & Ho' & lt' & Ht' & Hr' & Hf' & Hc').
    rewrite Hn', Ho', Hn, Ho. repeat split.
    exists (lt ++ lt'). rewrite Ht', Ht, <- app_assoc.
    unfold reads, fill_runs, closes in *. rewrite !count_app.
    rewrite Hr, Hr', Hf, Hf', Hc, Hc'. cbn [filter].
    repeat split; destruct d; reflexivity.
Qed.

(** The closure registered first runs last: when that is the closing of
    the file, [f.Close()] is the last call of the session. *)
Lemma run_closures_close_last E ds : forall w,
  exists pre, trace (snd (run_closures E (ds ++ [DCloseFile]) w))
    = pre ++ [EvFileClose;
              status (fclose_res E)
                ("failed to close " ++ outFile w ++ " : ")
                ("successfully closed " ++ outFile w)].
Proof.
  induction ds as [|d ds IH]; intros w.
  - exists (trace w ++ [EvLog Info ("closing " ++ outFile w)%string]).
    cbn -[append]. rewrite <- !app_assoc. reflexivity.
  - cbn [app]. rewrite run_closures_cons.
    destruct (run_closure_spec E d w) as (_ & Ho & _).
    rewrite <- Ho. apply IH.
Qed.

(** * Sessions *)

(** What a whole session keeps of the state in which the body was left. *)
Lemma session_spec E :
  numSamples (session E) = numSamples (at_return E) /\
  outFile (session E) = outFile (at_return E) /\
  exists lt, trace (session E) = trace (at_return E) ++ lt /\
    reads lt = 0%nat /\
    fill_runs lt = length (filter is_DFillSizes (registered E)) /\
    closes lt = length (filter is_DCloseFile (registered E)).
Proof.
  rewrite session_deferred.
  destruct (at_return_spec E) as (Hd & _). rewrite Hd.
  apply run_closures_spec.
Qed.

Lemma registered_after_create E :
  create_res E = None ->
  length (filter is_DCloseFile (registered E)) = 1%nat /\
  length (filter is_DFillSizes (registered E))
    = (if header_ok E then 1 else 0)%nat /\
  exists ds, registered E = ds ++ [DCloseFile].
Proof.
  intros Hc. unfold registered. rewrite Hc. cbn [succeeded negb].
  destruct (header_ok E); cbn [negb].
  2: { repeat split. exists []. reflexivity. }
  destruct (init_res E); cbn [succeeded negb].
  { repeat split. exists [DFillSizes]. reflexivity. }
  destruct (open_res E); cbn [succeeded negb].
  { repeat split. exists [DTerminate; DFillSizes]. reflexivity. }
  destruct (start_res E); cbn [succeeded negb].
  { repeat split. exists [DCloseStream; DTerminate; DFillSizes]. reflexivity. }
  repeat split.
  exists [DStopStream; DCloseStream; DTerminate; DFillSizes]. reflexivity.
Qed.

Lemma int_multiple_of_64 i : exists k, int (64 * i) = 64 * k.
Proof.
  unfold int, wrap. rewrite Z.mod_eq by lia.
  exists (i - 2 ^ 58 * ((64 * i + 2 ^ (64 - 1)) / 2 ^ 64)).
  change (2 ^ 64) with (64 * 2 ^ 58). ring.
Qed.

(** How often a session reads, patches and closes. *)
Lemma session_counts E :
  reads (trace (session E))
    = (if setup_ok E then length (ticks E) else 0%nat) /\
  reads (trace (session E)) = reads (trace (at_return E)) /\
  (create_res E = None ->
   closes (trace (session E)) = 1%nat /\
   fill_runs (trace (session E)) = (if header_ok E then 1 else 0)%nat).
Proof.
  destruct (at_return_spec E) as (_ & _ & Hr & Hf & Hcl & _).
  destruct (session_spec E) as (_ & _ & lt & Ht & Hrl & Hfl & Hcll).
  assert (Hreads : reads (trace (session E)) = reads (trace (at_return E))).
  { rewrite Ht. unfold reads in *. rewrite count_app, Hrl. lia. }
  split; [congruence|]. split; [exact Hreads|]. intros Hc.
  destruct (registered_after_create E Hc) as (Hc1 & Hf1 & _).
  rewrite Ht. unfold closes, fill_runs in *.
  rewrite !count_app, Hcl, Hcll, Hc1, Hf, Hfl, Hf1. split; reflexivity.
Qed.

(** C9: the sample counter is 0 when the body of Run is entered and grows
    by the length of [in], 64, in each pass through the capture loop and
    nowhere else; the value the size patches are computed from is 64 times
    the number of passes (in Go's [int]), a multiple of 64, and it is the
    number of ticks of the session when the loop was reached. *)
Theorem sample_counter_counts_frames E :
  let iterations := reads (trace (session E)) in
  numSamples (at_return E) = int (64 * Z.of_nat iterations) /\
  numSamples (session E) = numSamples (at_return E) /\
  iterations = (if setup_ok E then length (ticks E) else 0%nat) /\
  (exists k, numSamples (at_return E) = 64 * k) /\
  (64 * Z.of_nat iterations <= max_int ->
   numSamples (at_return E) = 64 * Z.of_nat iterations).
Proof.
  cbv zeta.
  destruct (at_return_spec E) as (_ & Hn & _).
  destruct (session_spec E) as (Hs & _).
  destruct (session_counts E) as (Hr & Hreads & _).
  rewrite Hreads in *. repeat split.
  - exact Hn.
  - exact Hs.
  - exact Hr.
  - rewrite Hn. apply int_multiple_of_64.
  - intros Hle. rewrite Hn. apply int_small. lia.
Qed.

(** [%d]: the decimal digits of the number, which read back as it. *)
Lemma fmt_d_decimal n :
  fmt_d n = NilZero.string_of_int (Z.to_int n) /\
  option_map Z.of_int (NilZero.int_of_string (fmt_d n)) = Some n.
Proof.
  split; [reflexivity|]. unfold fmt_d. rewrite NilZero.isi.
  - cbn [option_map]. rewrite DecimalZ.of_to. reflexivity.
  - destruct n as [|p|p]; cbn; try discriminate.
    intros [= H]. apply (DecimalPos.Unsigned.to_uint_nonnil p H).
  - destruct n as [|p|p]; cbn; try discriminate.
    intros [= H]. apply (DecimalPos.Unsigned.to_uint_nonnil p H).
Qed.

(** C7: without [--out] the file is named after the Unix time: the name
    is the decimal digits of [time.Now().Unix()], which read back as that
    number, followed by ".aiff"; a name given with [--out] gets ".aiff"
    appended, whatever it ends with; this is the name the file is created
    under. *)
Theorem output_file_name E :
  (flag_out E = "" ->
   outFile (session E)
     = (NilZero.string_of_int (Z.to_int (now_unix E)) ++ ".aiff")%string /\
   exists digits,
     outFile (session E) = (digits ++ ".aiff")%string /\
     option_map Z.of_int (NilZero.int_of_string digits)
       = Some (now_unix E)) /\
  (flag_out E <> "" ->
   outFile (session E) = (flag_out E ++ ".aiff")%string) /\
  exists rest,
    trace (session E) = EvNotify :: EvCreate (outFile (session E)) :: rest.
Proof.
  destruct (at_return_spec E) as (_ & _ & _ & _ & _ & _ & _ & H1 & H2 & r & Hr).
  destruct (session_spec E) as (_ & Ho & lt & Ht & _).
  destruct (fmt_d_decimal (now_unix E)) as (F1 & F2).
  rewrite Ho. split; [|split; [exact H2|]].
  - intros Hf. rewrite (H1 Hf). split; [rewrite F1; reflexivity|].
    exists (fmt_d (now_unix E)). split; [reflexivity|exact F2].
  - exists (r ++ lt). rewrite Ht, Hr. reflexivity.
Qed.

(** C8, as the code has it: once the file is created, every way out of Run
    closes it exactly once, and [f.Close()] is the last call of the
    session; the size patches run exactly once, before that, when the
    three header chunks were written, and not at all when a header write
    failed. *)
Theorem file_patched_then_closed E :
  create_res E = None ->
  closes (trace (session E)) = 1%nat /\
  fill_runs (trace (session E)) = (if header_ok E then 1 else 0)%nat /\
  exists pre,
    trace (session E)
      = pre ++ [EvFileClose;
                status (fclose_res E)
                  ("failed to close " ++ outFile (session E) ++ " : ")
                  ("successfully closed " ++ outFile (session E))].
Proof.
  intros Hc.
  destruct (at_return_spec E) as (Hd & _).
  destruct (session_spec E) as (_ & Ho & _).
  destruct (session_counts E) as (_ & _ & Hn).
  destruct (Hn Hc) as (Hcl & Hf).
  destruct (registered_after_create E Hc) as (_ & _ & ds & Hds).
  split; [exact Hcl|]. split; [exact Hf|].
  rewrite Ho, session_deferred, Hd, Hds. apply run_closures_close_last.
Qed.

(** * Teardown *)

(** All five closures, from any state. *)
Lemma run_closures_teardown E w :
  exists p1 p2 p3,
    trace (snd (run_closures E
      [DStopStream; DCloseStream; DTerminate; DFillSizes; DCloseFile] w))
    = trace w ++ teardown_events E (outFile w) (numSamples w) p1 p2 p3
                   (error_of (write_res E (2 + n_writes w))).
Proof.
  destruct w as [data pos nw ns tr ds out e n b].
  cbv beta iota delta [run_closures]. unfold_calls.
  do 3 eexists. rewrite <- !app_assoc. reflexivity.
Qed.

Lemma registered_after_setup E :
  setup_ok E = true ->
  registered E
    = [DStopStream; DCloseStream; DTerminate; DFillSizes; DCloseFile].
Proof.
  unfold setup_ok, registered. intros H.
  repeat (apply andb_prop in H; destruct H as [H ?]).
  repeat match goal with H : _ = true |- _ => rewrite H; clear H end.
  reflexivity.
Qed.

(** When the loop was reached, the session ends with the receive that
    stopped the loop, followed by the five closures. *)
Lemma teardown_after_loop E :
  setup_ok E = true ->
  exists pre p1 p2 p3,
    trace (session E)
      = pre ++ EvRecv (ending E)
            :: teardown_events E (outFile (session E)) (numSamples (session E))
                 p1 p2 p3
                 (error_of (write_res E (15 + length (ticks E)))) /\
    reads pre = length (ticks E).
Proof.
  intros Hs.
  destruct (at_return_spec E) as (Hd & _ & Hr & _ & _ & He & _).
  destruct (He Hs) as ([pre Hpre] & Hw). rewrite Hs in Hr.
  destruct (session_spec E) as (Hn & Ho & _).
  rewrite Hn, Ho, session_deferred, Hd, (registered_after_setup E Hs).
  destruct (run_closures_teardown E (at_return E)) as (p1 & p2 & p3 & Ht).
  exists pre, p1, p2, p3. rewrite Ht, Hw, Hpre, <- app_assoc.
  split; [reflexivity|].
  rewrite Hpre in Hr. unfold reads in *. rewrite count_app in Hr.
  cbn in Hr. lia.
Qed.

(** On a stop by a line on stdin the loop is left by [break], and the
    deferred closures run last registered first, whatever each of them
    returns: stream stop, stream close, portaudio terminate, the size
    patches, file close. *)
Lemma clean_stop_teardown_order E :
  setup_ok E = true -> ending E = ChDone ->
  exists pre p1 p2 p3,
    trace (session E)
      = pre ++ EvRecv ChDone
            :: teardown_events E (outFile (session E)) (numSamples (session E))
                 p1 p2 p3
                 (error_of (write_res E (15 + length (ticks E)))) /\
    filter is_call
      (teardown_events E (outFile (session E)) (numSamples (session E))
         p1 p2 p3 (error_of (write_res E (15 + length (ticks E)))))
      = [EvStreamStop; EvStreamClose; EvTerminate;
         EvSeek 4; EvWrite p1 (be32 (int32 (int (50 * numSamples (session E)))));
         EvSeek 22; EvWrite p2 (be32 (int32 (numSamples (session E))));
         EvSeek 42;
         EvWrite p3 (be32 (int32 (int (int (4 * numSamples (session E)) + 8))));
         EvFileClose].
Proof.
  intros Hs Hend.
  destruct (teardown_after_loop E Hs) as (pre & p1 & p2 & p3 & Ht & _).
  exists pre, p1, p2, p3. rewrite <- Hend. split; [exact Ht|].
  unfold teardown_events. cbn [filter is_call].
  rewrite !is_call_status. reflexivity.
Qed.

(** C3, as the code has it: on a signal the loop is left by [return]
    without another tick, and the deferred closures run as they do on a
    clean stop; the size patches run, once, before the file is closed. *)
Theorem signal_stop_runs_teardown E :
  setup_ok E = true -> ending E = ChStop ->
  exists pre p1 p2 p3,
    trace (session E)
      = pre ++ EvRecv ChStop
            :: teardown_events E (outFile (session E)) (numSamples (session E))
                 p1 p2 p3
                 (error_of (write_res E (15 + length (ticks E)))) /\
    reads pre = reads (trace (session E)) /\
    fill_runs (trace (session E)) = 1%nat.
Proof.
  intros Hs Hend.
  destruct (teardown_after_loop E Hs) as (pre & p1 & p2 & p3 & Ht & Hr).
  exists pre, p1, p2, p3. rewrite <- Hend. split; [exact Ht|].
  destruct (session_counts E) as (Hi & _ & Hn).
  rewrite Hs in Hi. split; [congruence|].
  unfold setup_ok in Hs.
  destruct (create_res E); [discriminate|].
  destruct (Hn eq_refl) as (_ & Hf). rewrite Hf.
  destruct (header_ok E); [reflexivity|discriminate].
Qed.

(** * The size patches *)

Lemma nth_error_slice off len d i :
  nth_error (slice off len d) i
    = if (i <? len)%nat then nth_error d (off + i) else None.
Proof. unfold slice. rewrite nth_error_firstn, nth_error_skipn. reflexivity. Qed.

Lemma slice_ext off len d d' :
  (forall i, (off <= i < off + len)%nat -> nth_error d' i = nth_error d i) ->
  slice off len d' = slice off len d.
Proof.
  intros H. apply nth_error_ext. intros i. rewrite !nth_error_slice.
  destruct (Nat.ltb_spec i len); [apply H; lia | reflexivity].
Qed.

Lemma slice_write_at pos bs d :
  (pos + length bs <= length d)%nat ->
  slice pos (length bs) (write_at pos bs d) = bs.
Proof.
  intros H. apply nth_error_ext. intros i.
  rewrite nth_error_slice, nth_error_write_at by exact H.
  destruct (Nat.ltb_spec i (length bs)) as [Hi|Hi].
  - replace (pos <=? pos + i)%nat with true by (symmetry; apply Nat.leb_le; lia).
    replace (pos + i <? pos + length bs)%nat with true
      by (symmetry; apply Nat.ltb_lt; lia).
    cbn [andb]. f_equal. lia.
  - symmetry. apply nth_error_None. exact Hi.
Qed.

(** Three writes of at most four bytes at 4, 22 and 42 keep the length of
    a file that holds the header and every byte outside the three
    fields. *)
Lemma patches_outside t1 t2 t3 d :
  (length t1 <= 4)%nat -> (length t2 <= 4)%nat -> (length t3 <= 4)%nat ->
  (46 <= length d)%nat ->
  let d' := write_at 42 t3 (write_at 22 t2 (write_at 4 t1 d)) in
  length d' = length d /\
  forall i, ~ patched i -> nth_error d' i = nth_error d i.
Proof.
  intros H1 H2 H3 Hd. cbv zeta.
  assert (L1 : length (write_at 4 t1 d) = length d)
    by (apply write_at_inside_length; lia).
  assert (L2 : length (write_at 22 t2 (write_at 4 t1 d)) = length d)
    by (rewrite write_at_inside_length; lia).
  split; [rewrite write_at_inside_length; lia|].
  intros i Hi. unfold patched in Hi.
  rewrite !nth_error_write_at by lia.
  repeat match goal with
  | |- context [(?a <=? ?b)%nat] => destruct (Nat.leb_spec a b)
  | |- context [(?a <? ?b)%nat] => destruct (Nat.ltb_spec a b)
  end; cbn [andb]; try reflexivity; exfalso; lia.
Qed.

(** The file after the closure, when its three seeks go through: what each
    write took lands at 4, 22 and 42. *)
Lemma fill_sizes_data E w :
  (forall k, (k < 3)%nat -> seek_res E (n_seeks w + k) = None) ->
  let n := numSamples w in
  let took k bs :=
    match write_res E (n_writes w + k) with
    | WOk => bs
    | WErr j _ => firstn j bs
    end in
  f_data (snd (fill_sizes E w))
    = write_at 42 (took 2%nat (be32 (int32 (int (int (4 * n) + 8)))))
        (write_at 22 (took 1%nat (be32 (int32 n)))
           (write_at 4 (took 0%nat (be32 (int32 (int (50 * n)))))
              (f_data w))).
Proof.
  intros Hs.
  pose proof (Hs 0%nat ltac:(lia)) as S0.
  pose proof (Hs 1%nat ltac:(lia)) as S1.
  pose proof (Hs 2%nat ltac:(lia)) as S2.
  destruct w as [data pos nw ns tr ds out e n b].
  cbn [n_seeks n_writes numSamples f_data] in *.
  rewrite Nat.add_0_r in S0. rewrite Nat.add_1_r in S1.
  replace (ns + 2)%nat with (S (S ns)) in S2 by lia.
  rewrite Nat.add_0_r, Nat.add_1_r.
  replace (nw + 2)%nat with (S (S nw)) by lia.
  unfold_calls. rewrite S0, S1, S2. reflexivity.
Qed.

Lemma took_length (r : wres) (bs : list Z) :
  (length (match r with WOk => bs | WErr j _ => firstn j bs end)
   <= length bs)%nat.
Proof. destruct r; [lia|]. rewrite length_firstn. lia. Qed.

(** With its seeks going through, the closure changes nothing outside the
    three size fields, whatever its writes return. *)
Lemma fill_sizes_outside E w :
  (forall k, (k < 3)%nat -> seek_res E (n_seeks w + k) = None) ->
  (46 <= length (f_data w))%nat ->
  let d' := f_data (snd (fill_sizes E w)) in
  length d' = length (f_data w) /\
  forall i, ~ patched i -> nth_error d' i = nth_error (f_data w) i.
Proof.
  intros Hs Hd. cbv zeta. rewrite (fill_sizes_data E w Hs).
  apply patches_outside; try exact Hd;
    (etransitivity; [apply took_length|rewrite be32_length; lia]).
Qed.

Lemma slice_write_at_other pos bs d off len :
  (pos + length bs <= length d)%nat ->
  (off + len <= pos \/ pos + length bs <= off)%nat ->
  slice off len (write_at pos bs d) = slice off len d.
Proof.
  intros H Hd. apply slice_ext. intros i Hi.
  rewrite nth_error_write_at by exact H.
  destruct (Nat.leb_spec pos i); destruct (Nat.ltb_spec i (pos + length bs));
    cbn [andb]; try reflexivity; exfalso; lia.
Qed.

(** The closures other than the size patches leave the file alone. *)
Lemma run_closure_file E d w :
  d <> DFillSizes ->
  let w' := snd (run_closure E d w) in
  f_data w' = f_data w /\ f_pos w' = f_pos w /\
  n_writes w' = n_writes w /\ n_seeks w' = n_seeks w /\
  numSamples w' = numSamples w.
Proof.
  intros Hd. destruct w as [data pos nw ns tr ds out e n b].
  destruct d; try contradiction; unfold_calls; repeat split.
Qed.

Lemma patches_decide_base E : patches_decide E [DFillSizes; DCloseFile].
Proof.
  intros w. exists w. rewrite !run_closures_cons. cbn [run_closures ret snd].
  split; [|auto].
  apply (run_closure_file E DCloseFile). discriminate.
Qed.

Lemma patches_decide_step E d ds :
  d <> DFillSizes -> patches_decide E ds -> patches_decide E (d :: ds).
Proof.
  intros Hd IH w. rewrite run_closures_cons.
  destruct (IH (snd (run_closure E d w))) as (w1 & H0 & H1 & H2 & H3 & H4).
  destruct (run_closure_file E d w Hd) as (F1 & _ & F2 & F3 & F4).
  exists w1. rewrite H0, H1, H2, H3, H4. auto.
Qed.

Lemma session_file E :
  create_res E = None -> header_ok E = true ->
  exists w1,
    f_data (session E) = f_data (snd (fill_sizes E w1)) /\
    f_data w1 = f_data (at_return E) /\
    n_writes w1 = n_writes (at_return E) /\
    n_seeks w1 = n_seeks (at_return E) /\
    numSamples w1 = numSamples (at_return E).
Proof.
  intros Hc Hh. rewrite session_deferred.
  destruct (at_return_spec E) as (Hd & _). rewrite Hd.
  unfold registered. rewrite Hc, Hh. cbn [succeeded negb].
  destruct (init_res E); cbn [succeeded negb];
    [|destruct (open_res E); cbn [succeeded negb];
      [|destruct (start_res E); cbn [succeeded negb]]];
    repeat (apply patches_decide_step; [discriminate|]);
    apply patches_decide_base.
Qed.

Lemma fill_sizes_trace_ok E w :
  (forall k, (k < 3)%nat -> seek_res E (n_seeks w + k) = None) ->
  (forall k, (k < 3)%nat -> write_res E (n_writes w + k) = WOk) ->
  let n := numSamples w in
  trace (snd (fill_sizes E w))
    = trace w ++
      [EvLog Info "filling in missing sizes";
       EvSeek 4; EvWrite 4 (be32 (int32 (int (50 * n))));
       EvSeek 22; EvWrite 22 (be32 (int32 n));
       EvSeek 42; EvWrite 42 (be32 (int32 (int (int (4 * n) + 8))));
       EvLog Success "successfully filled in missing sizes."].
Proof.
  intros Hs Hw.
  pose proof (Hs 0%nat ltac:(lia)) as S0.
  pose proof (Hs 1%nat ltac:(lia)) as S1.
  pose proof (Hs 2%nat ltac:(lia)) as S2.
  pose proof (Hw 0%nat ltac:(lia)) as W0.
  pose proof (Hw 1%nat ltac:(lia)) as W1.
  pose proof (Hw 2%nat ltac:(lia)) as W2.
  destruct w as [data pos nw ns tr ds out e n b].
  cbn [n_seeks n_writes numSamples trace] in *.
  rewrite Nat.add_0_r in S0, W0. rewrite Nat.add_1_r in S1, W1.
  replace (ns + 2)%nat with (S (S ns)) in S2 by lia.
  replace (nw + 2)%nat with (S (S nw)) in W2 by lia.
  unfold_calls. rewrite S0, S1, S2, W2. cbn [status].
  rewrite <- !app_assoc. reflexivity.
Qed.

(** The three values in range of [int32]. *)
Lemma sizes_in_range n :
  0 <= n -> 50 * n <= max_int32 ->
  int32 (int (50 * n)) = 50 * n /\ int32 n = n /\
  int32 (int (int (4 * n) + 8)) = 4 * n + 8.
Proof.
  unfold max_int32. intros H0 H1.
  rewrite !int32_int, (int_small (4 * n)) by (unfold max_int; lia).
  repeat split; apply int32_small; unfold max_int32; lia.
Qed.

Lemma int32_sound_size n : int32 (int (int (4 * n) + 8)) = int32 (4 * n + 8).
Proof.
  rewrite int32_int. unfold int32. apply wrap_eq_mod; [lia|].
  rewrite <- Zplus_mod_idemp_l.
  assert (H : int (4 * n) mod 2 ^ 32 = (4 * n) mod 2 ^ 32).
  { pose proof (int32_int (4 * n)) as H. unfold int32 in H.
    pose proof (wrap_mod 32 (int (4 * n)) ltac:(lia)) as H1.
    pose proof (wrap_mod 32 (4 * n) ltac:(lia)) as H2.
    congruence. }
  rewrite H, Zplus_mod_idemp_l. reflexivity.
Qed.

(** C1, as the code has it: on a file that holds the header and with its
    three seeks and three writes going through, the closure makes exactly
    these calls: seek to 4 and write int32(50 n), seek to 22 and write
    int32(n), seek to 42 and write int32(4 n + 8), each as four big-endian
    bytes.  The three fields read back as these int32 values, for every
    n (n = 0 included): the field at 4 is 50 n whenever 50 n <= 2^31 - 1,
    the field at 22 is n whenever n <= 2^31 - 1, the field at 42 is
    4 n + 8 whenever 4 n + 8 <= 2^31 - 1, and past its range a field holds
    its value reduced to 32-bit two's complement.  The file keeps its
    length and no byte outside the three fields changes. *)
Theorem fill_sizes_patches E w :
  let n := numSamples w in
  (54 <= length (f_data w))%nat ->
  (forall k, (k < 3)%nat -> seek_res E (n_seeks w + k) = None) ->
  (forall k, (k < 3)%nat -> write_res E (n_writes w + k) = WOk) ->
  let w' := snd (fill_sizes E w) in
  filter is_call (skipn (length (trace w)) (trace w'))
    = [EvSeek 4; EvWrite 4 (be32 (int32 (50 * n)));
       EvSeek 22; EvWrite 22 (be32 (int32 n));
       EvSeek 42; EvWrite 42 (be32 (int32 (4 * n + 8)))] /\
  slice 4 4 (f_data w') = be32 (int32 (50 * n)) /\
  slice 22 4 (f_data w') = be32 (int32 n) /\
  slice 42 4 (f_data w') = be32 (int32 (4 * n + 8)) /\
  be_int32 (slice 4 4 (f_data w')) = int32 (50 * n) /\
  be_int32 (slice 22 4 (f_data w')) = int32 n /\
  be_int32 (slice 42 4 (f_data w')) = int32 (4 * n + 8) /\
  (0 <= n -> 50 * n <= max_int32 ->
   be_int32 (slice 4 4 (f_data w')) = 50 * n) /\
  (0 <= n -> n <= max_int32 -> be_int32 (slice 22 4 (f_data w')) = n) /\
  (0 <= n -> 4 * n + 8 <= max_int32 ->
   be_int32 (slice 42 4 (f_data w')) = 4 * n + 8) /\
  length (f_data w') = length (f_data w) /\
  forall i, ~ patched i -> nth_error (f_data w') i = nth_error (f_data w) i.
Proof.
  intros n Hlen Hs Hw w'.
  set (a := int32 (50 * n)). set (b := int32 n). set (c := int32 (4 * n + 8)).
  assert (Hdata : f_data w'
    = write_at 42 (be32 c) (write_at 22 (be32 b) (write_at 4 (be32 a) (f_data w)))).
  { unfold w'. rewrite (fill_sizes_data E w Hs).
    rewrite !Hw by lia. fold n.
    rewrite int32_sound_size, (int32_int (50 * n)). reflexivity. }
  assert (Htrace : trace w' = trace w ++
      [EvLog Info "filling in missing sizes";
       EvSeek 4; EvWrite 4 (be32 a);
       EvSeek 22; EvWrite 22 (be32 b);
       EvSeek 42; EvWrite 42 (be32 c);
       EvLog Success "successfully filled in missing sizes."]).
  { unfold w'. rewrite (fill_sizes_trace_ok E w Hs Hw).
    fold n. rewrite int32_sound_size, (int32_int (50 * n)). reflexivity. }
  assert (L1 : length (write_at 4 (be32 a) (f_data w)) = length (f_data w))
    by (apply write_at_inside_length; rewrite be32_length; lia).
  assert (L2 : length (write_at 22 (be32 b) (write_at 4 (be32 a) (f_data w)))
               = length (f_data w))
    by (rewrite write_at_inside_length; rewrite ?be32_length; lia).
  assert (S1 : slice 4 4 (f_data w') = be32 a).
  { rewrite Hdata.
    rewrite !slice_write_at_other by (rewrite ?be32_length; lia).
    apply (slice_write_at 4 (be32 a)). rewrite be32_length. lia. }
  assert (S2 : slice 22 4 (f_data w') = be32 b).
  { rewrite Hdata.
    rewrite slice_write_at_other by (rewrite ?be32_length; lia).
    apply (slice_write_at 22 (be32 b)). rewrite be32_length. lia. }
  assert (S3 : slice 42 4 (f_data w') = be32 c).
  { rewrite Hdata.
    apply (slice_write_at 42 (be32 c)). rewrite be32_length. lia. }
  assert (I : forall v, int32 (int32 v) = int32 v).
  { intros v. unfold int32. apply wrap_eq_mod; [lia|]. apply wrap_mod. lia. }
  split.
  { rewrite Htrace, skipn_app, Nat.sub_diag, skipn_all. reflexivity. }
  split; [exact S1|]. split; [exact S2|]. split; [exact S3|].
  rewrite S1, S2, S3, !be_int32_be32. unfold a, b, c. rewrite !I.
  split; [reflexivity|]. split; [reflexivity|]. split; [reflexivity|].
  split; [intros; apply int32_small; unfold max_int32 in *; lia|].
  split; [intros; apply int32_small; unfold max_int32 in *; lia|].
  split; [intros; apply int32_small; unfold max_int32 in *; lia|].
  rewrite Hdata. apply patches_outside; rewrite ?be32_length; lia.
Qed.

(** The closure makes its six calls whatever they return, and what it
    reports is the result of the last write alone. *)
Lemma fill_sizes_calls E w :
  exists p1 p2 p3,
    trace (snd (fill_sizes E w))
    = trace w ++
      [EvLog Info "filling in missing sizes";
       EvSeek 4; EvWrite p1 (be32 (int32 (int (50 * numSamples w))));
       EvSeek 22; EvWrite p2 (be32 (int32 (numSamples w)));
       EvSeek 42;
       EvWrite p3 (be32 (int32 (int (int (4 * numSamples w) + 8))));
       status (error_of (write_res E (2 + n_writes w)))
         "failed to fill in missing sizes : "
         "successfully filled in missing sizes."].
Proof.
  destruct w as [data pos nw ns tr ds out e n b].
  unfold_calls. do 3 eexists. rewrite <- !app_assoc. reflexivity.
Qed.

(** * The markers *)

(** C10: the markers written are the ASCII strings FORM at 0, AIFF at 8,
    COMM at 12 and SSND at 38; neither the capture loop nor, with its seeks
    going through, the size patches touch them, so that they are in the
    file the session leaves. *)
Theorem chunk_markers E :
  create_res E = None -> header_ok E = true ->
  (bytes_of_string "FORM" = [70; 79; 82; 77] /\
   bytes_of_string "AIFF" = [65; 73; 70; 70] /\
   bytes_of_string "COMM" = [67; 79; 77; 77] /\
   bytes_of_string "SSND" = [83; 83; 78; 68]) /\
  (let d := f_data (at_return E) in
   slice 0 4 d = bytes_of_string "FORM" /\
   slice 8 4 d = bytes_of_string "AIFF" /\
   slice 12 4 d = bytes_of_string "COMM" /\
   slice 38 4 d = bytes_of_string "SSND") /\
  ((forall k, seek_res E k = None) ->
   let d := f_data (session E) in
   slice 0 4 d = bytes_of_string "FORM" /\
   slice 8 4 d = bytes_of_string "AIFF" /\
   slice 12 4 d = bytes_of_string "COMM" /\
   slice 38 4 d = bytes_of_string "SSND").
Proof.
  intros Hc Hh.
  destruct (at_return_spec E) as (_ & _ & _ & _ & _ & _ & Hf & _).
  rewrite Hc, Hh in Hf. destruct (Hf eq_refl) as (_ & samples & Hd).
  assert (Hbody :
    slice 0 4 (f_data (at_return E)) = bytes_of_string "FORM" /\
    slice 8 4 (f_data (at_return E)) = bytes_of_string "AIFF" /\
    slice 12 4 (f_data (at_return E)) = bytes_of_string "COMM" /\
    slice 38 4 (f_data (at_return E)) = bytes_of_string "SSND")
    by (rewrite Hd; repeat split; reflexivity).
  split; [repeat split; reflexivity|]. split; [exact Hbody|].
  intros Hs. cbv zeta.
  destruct (session_file E Hc Hh) as (w1 & Hd1 & Hw1 & _).
  destruct (fill_sizes_outside E w1) as (_ & Hout).
  { intros k _. apply Hs. }
  { rewrite Hw1, Hd, length_app.
    change (length header_bytes) with 54%nat. lia. }
  rewrite Hd1.
  destruct Hbody as (B1 & B2 & B3 & B4).
  rewrite <- B1, <- B2, <- B3, <- B4, <- Hw1.
  repeat split; apply slice_ext; intros i Hi; apply Hout;
    unfold patched; lia.
Qed.

(** * Sessions that are run *)

(** C1 as the claim has it fails on a take of 42949696 samples (671089
    ticks, some 16 minutes): 50 n is 2147484800, past the largest int32,
    and the total-bytes field reads back as -2147482496. *)
Lemma total_bytes_field_wraps :
  let w := patch_world 42949696 in
  let w' := snd (fill_sizes (calm "" 0 [] ChDone) w) in
  0 <= numSamples w /\
  slice 4 4 (f_data w') = [128; 0; 4; 128] /\
  be_int32 (slice 4 4 (f_data w')) = -2147482496 /\
  be_int32 (slice 4 4 (f_data w')) <> 50 * numSamples w.
Proof.
  cbv zeta. split; [vm_compute; discriminate|].
  split; [vm_compute; reflexivity|].
  split; [vm_compute; reflexivity|].
  vm_compute. discriminate.
Qed.

(** A session does reach that count. *)
Lemma long_take_count :
  let E := calm "" 0 (repeat (ReadOk []) (Z.to_nat 671089)) ChDone in
  numSamples (at_return E) = 42949696.
Proof.
  cbv zeta.
  destruct (at_return_spec
              (calm "" 0 (repeat (ReadOk []) (Z.to_nat 671089)) ChDone))
    as (_ & Hn & Hr & _).
  rewrite Hn, Hr.
  change (setup_ok _) with true. cbv iota.
  change (ticks _) with (repeat (ReadOk []) (Z.to_nat 671089)).
  rewrite repeat_length, Z2Nat.id by lia. reflexivity.
Qed.

Lemma fill_sizes_patches_witness :
  let E := calm "" 0 [] ChDone in
  let short := snd (fill_sizes E (patch_world 192)) in
  let long := snd (fill_sizes E (patch_world 42949696)) in
  ((54 <= length (f_data (patch_world 192)))%nat /\
   0 <= 192 /\ 50 * 192 <= max_int32 /\
   0 <= 42949696 /\ 4 * 42949696 + 8 <= max_int32) /\
  (slice 4 4 (f_data short) = [0; 0; 37; 128] /\
   be_int32 (slice 4 4 (f_data short)) = 9600 /\
   be_int32 (slice 22 4 (f_data short)) = 192 /\
   be_int32 (slice 42 4 (f_data short)) = 776) /\
  (be_int32 (slice 4 4 (f_data long)) = int32 2147484800 /\
   be_int32 (slice 22 4 (f_data long)) = 42949696 /\
   be_int32 (slice 42 4 (f_data long)) = 171798792).
Proof.
  cbv zeta.
  assert (H : (54 <= length (f_data (patch_world 192)))%nat)
    by (vm_compute; lia).
  assert (A0 : 0 <= 192) by lia.
  assert (A1 : 50 * 192 <= max_int32) by (vm_compute; discriminate).
  assert (B0 : 0 <= 42949696) by lia.
  assert (B1 : 42949696 <= max_int32) by (vm_compute; discriminate).
  assert (B2 : 4 * 42949696 + 8 <= max_int32) by (vm_compute; discriminate).
  split; [repeat split; assumption|].
  destruct (fill_sizes_patches (calm "" 0 [] ChDone) (patch_world 192)
              H (fun k _ => eq_refl) (fun k _ => eq_refl))
    as (_ & P & _ & _ & _ & _ & _ & V1 & V2 & V3 & _).
  destruct (fill_sizes_patches (calm "" 0 [] ChDone) (patch_world 42949696)
              H (fun k _ => eq_refl) (fun k _ => eq_refl))
    as (_ & _ & _ & _ & W1 & _ & _ & _ & W2 & W3 & _).
  split; [|split; [exact W1|split; [exact (W2 B0 B1)|exact (W3 B0 B2)]]].
  split; [rewrite P; vm_compute; reflexivity|].
  split; [exact (V1 A0 A1)|].
  split; [apply V2; [exact A0|vm_compute; discriminate]|].
  apply V3; [exact A0|vm_compute; discriminate].
Defined.

Lemma chunk_markers_witness :
  (create_res three_ticks = None /\ header_ok three_ticks = true /\
   forall k, seek_res three_ticks k = None) /\
  slice 8 4 (f_data (session three_ticks)) = bytes_of_string "AIFF".
Proof.
  split; [repeat split; reflexivity|].
  destruct (chunk_markers three_ticks eq_refl eq_refl) as (_ & _ & H).
  destruct (H (fun k => eq_refl)) as (_ & A & _). exact A.
Defined.

(** C3 as the claim has it fails: after a signal the size patches run. *)
Lemma signal_stop_patches_sizes :
  ending signal_after_one_tick = ChStop /\
  count is_signal (trace (session signal_after_one_tick)) = 1%nat /\
  fill_runs (trace (session signal_after_one_tick)) <> 0%nat.
Proof.
  split; [reflexivity|]. split; [vm_compute; reflexivity|].
  vm_compute. discriminate.
Qed.

Lemma signal_stop_runs_teardown_witness :
  (setup_ok signal_after_one_tick = true /\
   ending signal_after_one_tick = ChStop) /\
  fill_runs (trace (session signal_after_one_tick)) = 1%nat.
Proof.
  split; [split; reflexivity|].
  destruct (signal_stop_runs_teardown signal_after_one_tick eq_refl eq_refl)
    as (pre & p1 & p2 & p3 & _ & _ & H).
  exact H.
Defined.

Lemma clean_stop_teardown_order_witness :
  (setup_ok three_ticks = true /\ ending three_ticks = ChDone) /\
  exists pre p1 p2 p3,
    trace (session three_ticks)
      = pre ++ EvRecv ChDone
            :: teardown_events three_ticks (outFile (session three_ticks))
                 (numSamples (session three_ticks)) p1 p2 p3
                 (error_of (write_res three_ticks
                              (15 + length (ticks three_ticks)))).
Proof.
  split; [split; reflexivity|].
  destruct (clean_stop_teardown_order three_ticks eq_refl eq_refl)
    as (pre & p1 & p2 & p3 & H & _).
  exists pre, p1, p2, p3. exact H.
Defined.

(** C4: with the first patch write failing, the closure still makes its
    other calls, logs success, and leaves the total-bytes field at 0 for a
    take of 64 samples. *)
Theorem failed_patch_reported_as_success :
  since is_fill (trace (session patch_write_fails))
    = [EvLog Info "filling in missing sizes";
       EvSeek 4; EvWrite 4 [0; 0; 12; 128];
       EvSeek 22; EvWrite 22 [0; 0; 0; 64];
       EvSeek 42; EvWrite 42 [0; 0; 1; 8];
       EvLog Success "successfully filled in missing sizes.";
       EvLog Info "closing take.aiff"; EvFileClose;
       EvLog Success "successfully closed take.aiff"] /\
  write_res patch_write_fails 14 = WErr 0 "no space left on device" /\
  numSamples (session patch_write_fails) = 64 /\
  be_int32 (slice 4 4 (f_data (session patch_write_fails))) = 0.
Proof. repeat split; vm_compute; reflexivity. Qed.

Lemma output_file_name_witness :
  let named := calm "take.aiff" 1700000000 [] ChDone in
  let early := calm "" (-42) [] ChDone in
  (flag_out three_ticks = "" /\ flag_out early = "" /\ flag_out named <> "") /\
  outFile (session three_ticks) = "1700000000.aiff" /\
  outFile (session early) = "-42.aiff" /\
  outFile (session named) = "take.aiff.aiff".
Proof.
  cbv zeta.
  assert (N : flag_out (calm "take.aiff" 1700000000 [] ChDone) <> "")
    by (vm_compute; discriminate).
  split; [repeat split; [exact N]|].
  split; [|split].
  - destruct (output_file_name three_ticks) as (H & _).
    destruct (H eq_refl) as (-> & _). vm_compute. reflexivity.
  - destruct (output_file_name (calm "" (-42) [] ChDone)) as (H & _).
    destruct (H eq_refl) as (-> & _). vm_compute. reflexivity.
  - destruct (output_file_name (calm "take.aiff" 1700000000 [] ChDone))
      as (_ & H & _).
    exact (H N).
Defined.

(** C8 as the claim has it fails: when a header write fails the file is
    closed without the size patches having run. *)
Lemma header_failure_skips_patches :
  create_res header_write_fails = None /\
  closes (trace (session header_write_fails)) = 1%nat /\
  fill_runs (trace (session header_write_fails)) <> 1%nat.
Proof.
  split; [reflexivity|]. split; [vm_compute; reflexivity|].
  vm_compute. discriminate.
Qed.

Lemma file_patched_then_closed_witness :
  create_res header_write_fails = None /\
  closes (trace (session header_write_fails)) = 1%nat /\
  fill_runs (trace (session header_write_fails)) = 0%nat /\
  fill_runs (trace (session three_ticks)) = 1%nat.
Proof.
  split; [reflexivity|].
  destruct (file_patched_then_closed header_write_fails eq_refl)
    as (H1 & H2 & _).
  destruct (file_patched_then_closed three_ticks eq_refl) as (_ & H3 & _).
  split; [exact H1|]. split; [exact H2|exact H3].
Defined.

Lemma sample_counter_counts_frames_witness :
  64 * Z.of_nat (reads (trace (session three_ticks))) <= max_int /\
  numSamples (at_return three_ticks)
    = 64 * Z.of_nat (reads (trace (session three_ticks))) /\
  reads (trace (session three_ticks)) = 3%nat.
Proof.
  assert (H : 64 * Z.of_nat (reads (trace (session three_ticks))) <= max_int)
    by (vm_compute; discriminate).
  split; [exact H|].
  destruct (sample_counter_counts_frames three_ticks)
    as (_ & _ & I & _ & R).
  split; [exact (R H)|exact I].
Defined.

(** * The chunk writers on a failing file *)

Ltac split_writes :=
  repeat match goal with
  | |- context [match write_res ?E ?k with _ => _ end] =>
      destruct (write_res E k)
  end.

(** X1: each of the three chunk writers stops at its first failing write
    and returns the error of that write; it returns nil exactly when all of
    its writes (3, 6 and 4) go through. *)
Theorem chunk_writers_stop_at_first_failure E w :
  let res := write_res E in
  let k := n_writes w in
  (fst (writeFormChunk E w) = option_map snd (first_failure res k 3) /\
   n_writes (snd (writeFormChunk E w))
     = (k + attempts (first_failure res k 3) 3)%nat) /\
  (fst (writeCommonChunk E w) = option_map snd (first_failure res k 6) /\
   n_writes (snd (writeCommonChunk E w))
     = (k + attempts (first_failure res k 6) 6)%nat) /\
  (fst (writeSoundChunk E w) = option_map snd (first_failure res k 4) /\
   n_writes (snd (writeSoundChunk E w))
     = (k + attempts (first_failure res k 4) 4)%nat).
Proof.
  destruct w as [data pos nw ns tr ds out e n b]. cbv zeta.
  cbn [n_writes first_failure].
  cbv beta iota zeta delta
    [writeFormChunk writeCommonChunk writeSoundChunk f_WriteString f_Write
     bind ret f_data f_pos n_writes n_seeks trace defers outFile err
     numSamples in_buf].
  repeat split; split_writes; cbn [fst snd option_map attempts n_writes];
    first [reflexivity | lia].
Qed.

(** * The state at the capture loop *)

Ltac body_only :=
  unfold at_return, Run_body, setup_ok, header_ok; run;
  repeat (split_result; run).

(** When everything before the loop goes through, the body of Run is left
    in the state the loop leaves, and the loop starts from the header
    alone, the cursor behind it, a zero counter and 64 zero samples. *)
Lemma at_loop E :
  setup_ok E = true ->
  exists W,
    at_return E = snd (recording E (ticks E) (ending E) W) /\
    f_data W = header_bytes /\ f_pos W = 54%nat /\
    n_writes W = 13%nat /\ n_seeks W = 0%nat /\
    numSamples W = 0 /\ in_buf W = repeat 0 64.
Proof.
  body_only; try discriminate.
  all: intros _;
    match goal with
    | |- context [recording _ _ _ ?W0] => exists W0
    end;
    (split; [|repeat split; reflexivity]);
    match goal with
    | |- context [recording ?E' ?ts ?c ?W0] =>
        destruct (recording E' ts c W0) as [[] w']; reflexivity
    end.
Qed.

(** * What the loop appends *)

Lemma after_read_length b r : length (after_read b r) = length b.
Proof.
  destruct r as [fresh|[fresh|] e]; cbn [after_read];
    rewrite ?refill_length; reflexivity.
Qed.

Lemma frames_length ts : forall b,
  length (frames b ts) = (length b * length ts)%nat.
Proof.
  induction ts as [|r ts IH]; intros b; cbn [frames length]; [lia|].
  rewrite length_app, IH, after_read_length. lia.
Qed.

Lemma be32s_app a b : be32s (a ++ b) = be32s a ++ be32s b.
Proof. unfold be32s. apply flat_map_app. Qed.

Lemma be32s_bytes l : length (be32s l) = (4 * length l)%nat.
Proof.
  induction l as [|x l IH]; [reflexivity|].
  change (be32s (x :: l)) with (be32 x ++ be32s l).
  rewrite length_app, IH, be32_length. cbn [length]. lia.
Qed.

(** A tick whose write goes through, with the cursor at the end. *)
Lemma tick_captures E r w :
  f_pos w = length (f_data w) ->
  write_res E (n_writes w) = WOk ->
  let w' := snd (tick E r w) in
  f_data w' = f_data w ++ be32s (after_read (in_buf w) r) /\
  f_pos w' = length (f_data w') /\
  in_buf w' = after_read (in_buf w) r /\
  n_writes w' = S (n_writes w).
Proof.
  intros Hpos Hw. destruct w as [data pos nw ns tr ds out e n b].
  cbn [f_pos f_data n_writes in_buf] in *. subst pos.
  destruct r as [fresh|[fresh|] e']; cbn -[Z.add Z.of_nat]; rewrite Hw;
    cbn -[Z.add Z.of_nat]; rewrite write_at_end, length_app;
    repeat split; reflexivity.
Qed.

Lemma recording_captures E ts c : forall w,
  f_pos w = length (f_data w) ->
  (forall k, (k < length ts)%nat -> write_res E (n_writes w + k) = WOk) ->
  f_data (snd (recording E ts c w))
    = f_data w ++ be32s (frames (in_buf w) ts).
Proof.
  induction ts as [|r ts IH]; intros w Hpos Hw.
  - assert (H : snd (recording E [] c w) = snd (emit (EvRecv c) w))
      by (destruct c; reflexivity).
    rewrite H. cbn. now rewrite app_nil_r.
  - rewrite recording_cons.
    destruct (tick_captures E r w Hpos) as (Hd & Hp & Hb & Hn).
    { rewrite <- (Nat.add_0_r (n_writes w)). apply Hw. cbn [length]. lia. }
    rewrite IH.
    + rewrite Hd, Hb. cbn [frames]. rewrite be32s_app, app_assoc.
      reflexivity.
    + exact Hp.
    + intros k Hk. rewrite Hn.
      replace (S (n_writes w) + k)%nat with (n_writes w + S k)%nat by lia.
      apply Hw. cbn [length]. lia.
Qed.

Lemma at_return_frames E :
  setup_ok E = true ->
  (forall k, (k < length (ticks E))%nat -> write_res E (13 + k) = WOk) ->
  f_data (at_return E)
    = header_bytes ++ be32s (frames (repeat 0 64) (ticks E)) /\
  length (f_data (at_return E)) = (54 + 256 * length (ticks E))%nat.
Proof.
  intros Hs Hw.
  destruct (at_loop E Hs) as (W & -> & Hd & Hp & Hn & _ & _ & Hb).
  assert (H : f_data (snd (recording E (ticks E) (ending E) W))
              = header_bytes ++ be32s (frames (repeat 0 64) (ticks E))).
  { rewrite recording_captures.
    - rewrite Hd, Hb. reflexivity.
    - rewrite Hp, Hd. reflexivity.
    - intros k Hk. rewrite Hn. apply Hw. exact Hk. }
  split; [exact H|].
  rewrite H, length_app, be32s_bytes, frames_length, repeat_length.
  change (length header_bytes) with 54%nat. lia.
Qed.

(** X5: when the file takes every write of the loop, the body of Run
    leaves the header followed by the frames in the order they were read,
    each sample as four big-endian bytes: 256 bytes per tick from offset 54
    on. *)
Theorem frames_appended_in_order E :
  setup_ok E = true ->
  (forall k, (k < length (ticks E))%nat -> write_res E (13 + k) = WOk) ->
  f_data (at_return E)
    = header_bytes ++ be32s (frames (repeat 0 64) (ticks E)) /\
  length (f_data (at_return E)) = (54 + 256 * length (ticks E))%nat.
Proof. exact (at_return_frames E). Qed.

Lemma frames_appended_in_order_witness :
  (setup_ok three_ticks = true /\
   forall k, (k < length (ticks three_ticks))%nat ->
             write_res three_ticks (13 + k) = WOk) /\
  length (f_data (at_return three_ticks)) = 822%nat.
Proof.
  split; [split; [reflexivity|intros; reflexivity]|].
  destruct (frames_appended_in_order three_ticks eq_refl
              (fun k _ => eq_refl)) as (_ & H).
  exact H.
Defined.

(** * Reading the file back *)

Lemma decode32s_be32s l : decode32s (be32s l) = map int32 l.
Proof.
  induction l as [|x l IH]; [reflexivity|].
  change (be32s (x :: l)) with (be32 x ++ be32s l).
  unfold be32 at 1. cbn [app decode32s map]. rewrite IH. f_equal.
  apply (be_int32_be32 x).
Qed.

Lemma skipn_ext (k : nat) (d d' : list Z) :
  (forall i, (k <= i)%nat -> nth_error d' i = nth_error d i) ->
  skipn k d' = skipn k d.
Proof.
  intros H. apply nth_error_ext. intros i. rewrite !nth_error_skipn.
  apply H. lia.
Qed.

(** With its seeks going through, the teardown leaves everything from
    offset 54 on as the loop left it. *)
Lemma session_keeps_samples E :
  create_res E = None -> header_ok E = true ->
  (forall k, seek_res E k = None) ->
  skipn 54 (f_data (session E)) = skipn 54 (f_data (at_return E)) /\
  length (f_data (session E)) = length (f_data (at_return E)).
Proof.
  intros Hc Hh Hs.
  destruct (at_return_spec E) as (_ & _ & _ & _ & _ & _ & Hf & _).
  rewrite Hc, Hh in Hf. destruct (Hf eq_refl) as (_ & samples & Hd).
  destruct (session_file E Hc Hh) as (w1 & Hd1 & Hw1 & _).
  destruct (fill_sizes_outside E w1) as (Hl & Hout).
  { intros k _. apply Hs. }
  { rewrite Hw1, Hd, length_app.
    change (length header_bytes) with 54%nat. lia. }
  rewrite Hd1, <- Hw1. split; [|exact Hl].
  apply skipn_ext. intros i Hi. apply Hout. unfold patched. lia.
Qed.

(** X6: the samples read back from offset 54 of the file a session
    leaves, four bytes at a time as big-endian int32, are the samples of
    the frames in the order they were read. *)
Theorem samples_read_back E :
  setup_ok E = true ->
  (forall k, (k < length (ticks E))%nat -> write_res E (13 + k) = WOk) ->
  (forall k, seek_res E k = None) ->
  decode32s (skipn 54 (f_data (session E)))
    = map int32 (frames (repeat 0 64) (ticks E)).
Proof.
  intros Hs Hw Hk.
  assert (Hc : create_res E = None /\ header_ok E = true).
  { unfold setup_ok in Hs. destruct (create_res E); [discriminate|].
    destruct (header_ok E); [split; reflexivity|discriminate]. }
  destruct Hc as (Hc & Hh).
  destruct (session_keeps_samples E Hc Hh Hk) as (-> & _).
  destruct (at_return_frames E Hs Hw) as (-> & _).
  change (skipn 54 (header_bytes ++ ?l)) with l.
  apply decode32s_be32s.
Qed.

Lemma samples_read_back_witness :
  (setup_ok three_ticks = true /\
   (forall k, (k < length (ticks three_ticks))%nat ->
              write_res three_ticks (13 + k) = WOk) /\
   forall k, seek_res three_ticks k = None) /\
  firstn 3 (decode32s (skipn 54 (f_data (session three_ticks)))) = [1; -1; 0].
Proof.
  split; [repeat split; intros; reflexivity|].
  rewrite (samples_read_back three_ticks eq_refl (fun k _ => eq_refl)
             (fun k => eq_refl)).
  vm_compute. reflexivity.
Defined.

(** * Calls of a session *)

Lemma status_is_log r a b : exists l m, status r a b = EvLog l m.
Proof. destruct r; cbn; eauto. Qed.

Lemma not_log_status (p : event -> bool) r a b :
  (forall l m, p (EvLog l m) = false) -> p (status r a b) = false.
Proof. intros H. destruct (status_is_log r a b) as (l & m & ->). apply H. Qed.

Ltac count_calls :=
  repeat first
    [ rewrite count_cons_false
        by first [reflexivity | apply not_log_status; reflexivity]
    | rewrite count_cons_true by reflexivity ];
  try reflexivity.

Lemma tick_event_not_call (p : event -> bool) :
  p EvStreamRead = false -> (forall o bs, p (EvWrite o bs) = false) ->
  (forall l m, p (EvLog l m) = false) ->
  forall ev, tick_event ev = true -> p ev = false.
Proof.
  intros H1 H2 H3 ev. destruct ev as [l m| | | | | | | | | | | | | |];
    cbn; auto; discriminate.
Qed.

Ltac count_leaf p :=
  first
    [ reflexivity
    | match goal with
      | Ht : trace _ = _, Hk : forallb tick_event ?l = true |- _ =>
          rewrite Ht;
          repeat first [ rewrite count_cons_false by reflexivity
                       | rewrite count_cons_true by reflexivity ];
          rewrite count_app;
          rewrite (count_none p tick_event l);
          [ reflexivity | apply tick_event_not_call; reflexivity | exact Hk ]
      end ].

(** What the body of Run calls before it is left. *)
Lemma at_return_calls E :
  let w := at_return E in
  let created := succeeded (create_res E) in
  let initialised := created && header_ok E && succeeded (init_res E) in
  let opened := initialised && succeeded (open_res E) in
  count is_usage (trace w) = (if setup_ok E then 0 else 1)%nat /\
  count is_stream_stop (trace w) = 0%nat /\
  count is_stream_close (trace w) = 0%nat /\
  count is_terminate (trace w) = 0%nat /\
  count is_initialize (trace w)
    = (if created && header_ok E then 1 else 0)%nat /\
  count is_open_stream (trace w) = (if initialised then 1 else 0)%nat /\
  count is_stream_start (trace w) = (if opened then 1 else 0)%nat /\
  (succeeded (create_res E) && header_ok E = true ->
   setup_ok E = false -> f_data w = header_bytes) /\
  (forall e, create_res E = Some e ->
   trace w = [EvNotify; EvCreate (outFile w);
              EvLog Error
                ("failed to create " ++ outFile w ++ " : " ++ e)%string;
              EvUsage] /\
   f_data w = [] /\ defers w = []).
Proof.
  body_cases.
  all: split; [count_leaf is_usage|].
  all: split; [count_leaf is_stream_stop|].
  all: split; [count_leaf is_stream_close|].
  all: split; [count_leaf is_terminate|].
  all: split; [count_leaf is_initialize|].
  all: split; [count_leaf is_open_stream|].
  all: split; [count_leaf is_stream_start|].
  all: split; [first [discriminate | intros _ _; reflexivity]|].
  all: intros err0 Herr; first [discriminate Herr | congruence | idtac].
  all: injection Herr as ->; repeat split.
Qed.

Lemma run_closure_calls E d w :
  exists lt, trace (snd (run_closure E d w)) = trace w ++ lt /\
    count is_usage lt = 0%nat /\
    count is_stream_stop lt = (if is_DStopStream d then 1 else 0)%nat /\
    count is_stream_close lt = (if is_DCloseStream d then 1 else 0)%nat /\
    count is_terminate lt = (if is_DTerminate d then 1 else 0)%nat.
Proof.
  destruct w as [data pos nw ns tr ds out e n b].
  destruct d; unfold_calls; rewrite <- ?app_assoc; cbn [app]; eexists;
    (split; [reflexivity|]); repeat split; count_calls.
Qed.

Lemma run_closures_calls E ds : forall w,
  exists lt, trace (snd (run_closures E ds w)) = trace w ++ lt /\
    count is_usage lt = 0%nat /\
    count is_stream_stop lt = length (filter is_DStopStream ds) /\
    count is_stream_close lt = length (filter is_DCloseStream ds) /\
    count is_terminate lt = length (filter is_DTerminate ds).
Proof.
  induction ds as [|d ds IH]; intros w.
  - exists []. cbn. rewrite app_nil_r. repeat split.
  - rewrite run_closures_cons.
    destruct (run_closure_calls E d w) as (lt & Ht & U & S1 & S2 & S3).
    destruct (IH (snd (run_closure E d w)))
      as (lt' & Ht' & U' & S1' & S2' & S3').
    exists (lt ++ lt'). rewrite Ht', Ht, <- app_assoc, !count_app.
    rewrite U, U', S1, S1', S2, S2', S3, S3'. cbn [filter].
    repeat split; destruct d; reflexivity.
Qed.

Lemma session_calls E :
  let tr := trace (session E) in
  count is_usage tr = (if setup_ok E then 0 else 1)%nat /\
  count is_stream_stop tr = length (filter is_DStopStream (registered E)) /\
  count is_stream_close tr = length (filter is_DCloseStream (registered E)) /\
  count is_terminate tr = length (filter is_DTerminate (registered E)).
Proof.
  cbv zeta. rewrite session_deferred.
  destruct (at_return_spec E) as (Hd & _). rewrite Hd.
  destruct (at_return_calls E) as (U & S1 & S2 & S3 & _).
  destruct (run_closures_calls E (registered E) (at_return E))
    as (lt & -> & U' & S1' & S2' & S3').
  rewrite !count_app, U, U', S1, S1', S2, S2', S3, S3'.
  repeat split; lia.
Qed.

(** X2: every release is called exactly once when its acquisition went
    through, and never otherwise: the file is closed when it was created,
    portaudio is terminated when it was initialised, the stream is closed
    when it was opened and stopped when it was started. *)
Theorem resources_released_once E :
  let tr := trace (session E) in
  let created := succeeded (create_res E) in
  let initialised := created && header_ok E && succeeded (init_res E) in
  let opened := initialised && succeeded (open_res E) in
  let started := opened && succeeded (start_res E) in
  closes tr = (if created then 1 else 0)%nat /\
  count is_terminate tr = (if initialised then 1 else 0)%nat /\
  count is_stream_close tr = (if opened then 1 else 0)%nat /\
  count is_stream_stop tr = (if started then 1 else 0)%nat.
Proof.
  cbv zeta.
  destruct (session_calls E) as (_ & S1 & S2 & S3). rewrite S1, S2, S3.
  split.
  - destruct (create_res E) as [e|] eqn:Hc; cbn [succeeded].
    + destruct (at_return_calls E) as (_ & _ & _ & _ & _ & _ & _ & _ & H).
      destruct (H e Hc) as (Ht & _ & Hd).
      rewrite session_deferred, Hd. cbn [run_closures ret snd]. rewrite Ht.
      reflexivity.
    + destruct (session_counts E) as (_ & _ & H). apply (H Hc).
  - unfold registered.
    destruct (create_res E), (header_ok E), (init_res E), (open_res E),
      (start_res E); repeat split; reflexivity.
Qed.

(** X3: the usage text is printed exactly once by a session that does not
    get to the capture loop, and not at all by one that does. *)
Theorem usage_on_setup_failure_only E :
  count is_usage (trace (session E)) = (if setup_ok E then 0 else 1)%nat.
Proof. apply (session_calls E). Qed.

(** X4: when the file cannot be created nothing else is attempted: the
    session is the signal registration, the failed [os.Create], the error
    line and the usage text; no deferred call is registered and nothing is
    written, closed or initialised. *)
Theorem create_failure_stops_everything E e :
  create_res E = Some e ->
  trace (session E)
    = [EvNotify; EvCreate (outFile (session E));
       EvLog Error
         ("failed to create " ++ outFile (session E) ++ " : " ++ e)%string;
       EvUsage] /\
  f_data (session E) = [].
Proof.
  intros Hc.
  destruct (at_return_calls E) as (_ & _ & _ & _ & _ & _ & _ & _ & H).
  destruct (H e Hc) as (Ht & Hf & Hd).
  rewrite session_deferred, Hd. cbn [run_closures ret snd].
  rewrite Hf. split; [exact Ht|reflexivity].
Qed.

Lemma create_failure_stops_everything_witness :
  let E := {| flag_out := "take"; now_unix := 0;
              create_res := Some "permission denied";
              write_res := fun _ => WOk; seek_res := fun _ => None;
              fclose_res := None; init_res := None; terminate_res := None;
              open_res := None; start_res := None; stop_res := None;
              sclose_res := None; ticks := [ReadOk []]; ending := ChDone |} in
  create_res E = Some "permission denied" /\
  trace (session E)
    = [EvNotify; EvCreate "take.aiff";
       EvLog Error "failed to create take.aiff : permission denied";
       EvUsage].
Proof.
  cbv zeta. split; [reflexivity|].
  match goal with
  | |- trace (session ?E) = _ =>
      destruct (create_failure_stops_everything E "permission denied" eq_refl)
        as (H & _); rewrite H
  end.
  vm_compute. reflexivity.
Defined.

(** * The file a session leaves *)

Lemma write_at_app_l pos bs pre suf :
  (pos + length bs <= length pre)%nat ->
  write_at pos bs (pre ++ suf) = write_at pos bs pre ++ suf.
Proof.
  intros H. rewrite !write_at_inside by (rewrite ?length_app; lia).
  rewrite firstn_app, skipn_app.
  replace (pos - length pre)%nat with 0%nat by lia.
  replace (pos + length bs - length pre)%nat with 0%nat by lia.
  cbn [firstn skipn]. rewrite app_nil_r, <- !app_assoc. reflexivity.
Qed.

Lemma patch_header a b c :
  write_at 42 (be32 c) (write_at 22 (be32 b) (write_at 4 (be32 a) header_bytes))
  = bytes_of_string "FORM" ++ be32 a ++ bytes_of_string "AIFF"
    ++ bytes_of_string "COMM" ++ be32 18 ++ be16 1 ++ be32 b ++ be16 32
    ++ [64; 14; 172; 68; 0; 0; 0; 0; 0; 0]
    ++ bytes_of_string "SSND" ++ be32 c ++ be32 0 ++ be32 0.
Proof. reflexivity. Qed.

(** With the header written and every later seek and write going through,
    the file a session leaves is the header with the three sizes of its
    counter, followed by what the loop appended. *)
Lemma session_data E :
  create_res E = None -> header_ok E = true ->
  (forall k, seek_res E k = None) ->
  (forall k, (13 <= k)%nat -> write_res E k = WOk) ->
  exists samples,
    f_data (at_return E) = header_bytes ++ samples /\
    f_data (session E) = patched_header (numSamples (session E)) ++ samples.
Proof.
  intros Hc Hh Hs Hw.
  destruct (at_return_spec E) as (_ & _ & _ & _ & _ & Hl & Hf & _).
  rewrite Hc, Hh in Hf. destruct (Hf eq_refl) as (_ & samples & Hd).
  exists samples. split; [exact Hd|].
  destruct (session_spec E) as (-> & _).
  destruct (session_file E Hc Hh) as (w1 & -> & Hd1 & Hw1 & _ & Hn1).
  rewrite (fill_sizes_data E w1) by (intros; apply Hs).
  assert (Hge : (13 <= n_writes w1)%nat).
  { rewrite Hw1. destruct (setup_ok E) eqn:Hsu.
    - destruct (Hl eq_refl) as (_ & ->). lia.
    - clear - Hc Hh Hsu. revert Hc Hh Hsu. body_only.
      all: try discriminate; intros; cbn; lia. }
  rewrite !Hw by lia. rewrite Hd1, Hd, Hn1.
  rewrite !write_at_app_l by (apply Nat.leb_le; reflexivity).
  rewrite patch_header. reflexivity.
Qed.

Lemma session_count E :
  numSamples (session E)
    = int (64 * Z.of_nat (if setup_ok E then length (ticks E) else 0%nat)).
Proof.
  destruct (session_spec E) as (-> & _).
  destruct (at_return_spec E) as (_ & -> & -> & _). reflexivity.
Qed.

Lemma setup_ok_header E :
  setup_ok E = true -> create_res E = None /\ header_ok E = true.
Proof.
  unfold setup_ok. destruct (create_res E); [discriminate|].
  destruct (header_ok E); [split; reflexivity|discriminate].
Qed.

(** The file of a session in which nothing fails. *)
Lemma session_data_frames E :
  setup_ok E = true ->
  (forall k, (13 <= k)%nat -> write_res E k = WOk) ->
  (forall k, seek_res E k = None) ->
  f_data (session E)
    = patched_header (int (64 * Z.of_nat (length (ticks E))))
      ++ be32s (frames (repeat 0 64) (ticks E)).
Proof.
  intros Hs Hw Hk. destruct (setup_ok_header E Hs) as (Hc & Hh).
  destruct (session_data E Hc Hh Hk Hw) as (samples & Hd & ->).
  destruct (at_return_frames E Hs) as (Hf & _).
  { intros k _. apply Hw. lia. }
  rewrite Hf in Hd. apply app_inv_head in Hd. subst samples.
  rewrite session_count, Hs. reflexivity.
Qed.

(** X7: in a session in which nothing fails and whose sizes fit an int32,
    the sample-count field read back from the file is the number of
    samples the loop appended (64 per tick), the file is 54 bytes of header
    and four bytes per sample long, and the sound-chunk size is the number
    of sample bytes plus the 8 bytes of its offset and block fields. *)
Theorem sizes_match_samples E :
  setup_ok E = true ->
  (forall k, (13 <= k)%nat -> write_res E k = WOk) ->
  (forall k, seek_res E k = None) ->
  50 * (64 * Z.of_nat (length (ticks E))) <= max_int32 ->
  let d := f_data (session E) in
  be_int32 (slice 22 4 d) = 64 * Z.of_nat (length (ticks E)) /\
  Z.of_nat (length d) = 54 + 4 * be_int32 (slice 22 4 d) /\
  be_int32 (slice 42 4 d) = Z.of_nat (length (skipn 54 d)) + 8.
Proof.
  intros Hs Hw Hk Hmax d. subst d.
  rewrite (session_data_frames E Hs Hw Hk).
  set (t := Z.of_nat (length (ticks E))) in *.
  assert (Ht : 0 <= t) by (unfold t; lia).
  assert (Hn : int (64 * t) = 64 * t)
    by (apply int_small; unfold max_int, max_int32 in *; lia).
  rewrite Hn.
  destruct (sizes_in_range (64 * t) ltac:(lia) Hmax) as (_ & V2 & V3).
  set (S := be32s (frames (repeat 0 64) (ticks E))).
  assert (HS : Z.of_nat (length S) = 4 * (64 * t)).
  { unfold S, t. rewrite be32s_bytes, frames_length, repeat_length. lia. }
  change (slice 22 4 (patched_header (64 * t) ++ S))
    with (be32 (int32 (64 * t))).
  change (slice 42 4 (patched_header (64 * t) ++ S))
    with (be32 (int32 (int (int (4 * (64 * t)) + 8)))).
  change (skipn 54 (patched_header (64 * t) ++ S)) with S.
  rewrite !be_int32_be32, V3, V2, length_app.
  change (length (patched_header (64 * t))) with 54%nat.
  rewrite (int32_small (64 * t)) by (unfold max_int32 in *; lia).
  rewrite (int32_small (4 * (64 * t) + 8)) by (unfold max_int32 in *; lia).
  repeat split; lia.
Qed.

Lemma sizes_match_samples_witness :
  (setup_ok three_ticks = true /\
   (forall k, (13 <= k)%nat -> write_res three_ticks k = WOk) /\
   (forall k, seek_res three_ticks k = None) /\
   50 * (64 * Z.of_nat (length (ticks three_ticks))) <= max_int32) /\
  be_int32 (slice 22 4 (f_data (session three_ticks))) = 192.
Proof.
  assert (H : 50 * (64 * Z.of_nat (length (ticks three_ticks))) <= max_int32)
    by (vm_compute; discriminate).
  split; [repeat split; intros; try reflexivity; exact H|].
  destruct (sizes_match_samples three_ticks eq_refl (fun k _ => eq_refl)
              (fun k => eq_refl) H) as (V & _).
  exact V.
Defined.

Lemma wrap_divide_64 bits x :
  6 <= bits -> (64 | x) -> (64 | wrap bits x).
Proof.
  intros Hb [k ->]. unfold wrap.
  assert (Hp : 2 ^ bits = 64 * 2 ^ (bits - 6)).
  { replace bits with (6 + (bits - 6)) at 1 by lia.
    rewrite Z.pow_add_r by lia. reflexivity. }
  rewrite Z.mod_eq by (rewrite Hp; pose proof (Z.pow_pos_nonneg 2 (bits - 6)); lia).
  set (q := (k * 64 + 2 ^ (bits - 1)) / 2 ^ bits).
  exists (k - 2 ^ (bits - 6) * q). rewrite Hp. ring.
Qed.

(** X8: in a session in which nothing fails, the total-bytes field at
    offset 4 holds 50 times the sample count, a multiple of 64, and so
    never the length of the file less the 8 bytes of the form marker and
    the field itself. *)
Theorem total_bytes_is_not_form_size E :
  setup_ok E = true ->
  (forall k, (13 <= k)%nat -> write_res E k = WOk) ->
  (forall k, seek_res E k = None) ->
  let d := f_data (session E) in
  (64 | be_int32 (slice 4 4 d)) /\
  be_int32 (slice 4 4 d) <> Z.of_nat (length d) - 8.
Proof.
  intros Hs Hw Hk d. subst d.
  rewrite (session_data_frames E Hs Hw Hk).
  set (n := int (64 * Z.of_nat (length (ticks E)))).
  set (S := be32s (frames (repeat 0 64) (ticks E))).
  assert (HS : Z.of_nat (length S) = 256 * Z.of_nat (length (ticks E))).
  { unfold S. rewrite be32s_bytes, frames_length, repeat_length. lia. }
  change (slice 4 4 (patched_header n ++ S)) with (be32 (int32 (int (50 * n)))).
  rewrite be_int32_be32, length_app.
  change (length (patched_header n)) with 54%nat.
  assert (Hd : (64 | int32 (int32 (int (50 * n))))).
  { unfold int32, int. do 3 (apply wrap_divide_64; [lia|]).
    apply Z.divide_mul_r. unfold n, int. apply wrap_divide_64; [lia|].
    apply Z.divide_factor_l. }
  split; [exact Hd|]. destruct Hd as [m Hm]. rewrite Hm. lia.
Qed.

Lemma total_bytes_is_not_form_size_witness :
  (setup_ok three_ticks = true /\
   (forall k, (13 <= k)%nat -> write_res three_ticks k = WOk) /\
   (forall k, seek_res three_ticks k = None)) /\
  be_int32 (slice 4 4 (f_data (session three_ticks)))
    <> Z.of_nat (length (f_data (session three_ticks))) - 8.
Proof.
  split; [repeat split; intros; reflexivity|].
  apply (total_bytes_is_not_form_size three_ticks eq_refl (fun k _ => eq_refl)
           (fun k => eq_refl)).
Defined.

(** X13: a session that ends before any tick, on a failure after the
    header was written or on a stop before the first tick, leaves a file
    of the 54 header bytes with a sample count of 0 and a sound-chunk size
    of 8, when its seeks and patch writes go through. *)
Theorem no_tick_leaves_empty_container E :
  create_res E = None -> header_ok E = true ->
  (forall k, seek_res E k = None) ->
  (forall k, (13 <= k)%nat -> write_res E k = WOk) ->
  setup_ok E = false \/ ticks E = [] ->
  let d := f_data (session E) in
  d = patched_header 0 /\ length d = 54%nat /\
  be_int32 (slice 4 4 d) = 0 /\ be_int32 (slice 22 4 d) = 0 /\
  be_int32 (slice 42 4 d) = 8.
Proof.
  intros Hc Hh Hk Hw Hcase d. subst d.
  destruct (session_data E Hc Hh Hk Hw) as (samples & Hd & ->).
  assert (Hn : numSamples (session E) = 0).
  { rewrite session_count. destruct Hcase as [->| ->];
      [|destruct (setup_ok E)]; reflexivity. }
  assert (He : samples = []).
  { destruct (setup_ok E) eqn:Hs.
    - destruct Hcase as [?| Ht]; [discriminate|].
      destruct (at_return_frames E Hs) as (Hf & _).
      { intros k _. apply Hw. lia. }
      rewrite Ht in Hf. rewrite Hf in Hd. apply app_inv_head in Hd.
      symmetry. exact Hd.
    - destruct (at_return_calls E) as (_ & _ & _ & _ & _ & _ & _ & Hb & _).
      rewrite Hc, Hh in Hb. rewrite (Hb eq_refl Hs) in Hd.
      rewrite <- (app_nil_r header_bytes) in Hd at 1.
      apply app_inv_head in Hd. symmetry. exact Hd. }
  rewrite Hn, He, app_nil_r. repeat split; vm_compute; reflexivity.
Qed.

Lemma no_tick_leaves_empty_container_witness :
  let E := {| flag_out := ""; now_unix := 0; create_res := None;
              write_res := fun _ => WOk; seek_res := fun _ => None;
              fclose_res := None;
              init_res := Some "no default input device";
              terminate_res := None; open_res := None; start_res := None;
              stop_res := None; sclose_res := None;
              ticks := [ReadOk []]; ending := ChDone |} in
  (create_res E = None /\ header_ok E = true /\ setup_ok E = false) /\
  length (f_data (session E)) = 54%nat.
Proof.
  cbv zeta. split; [repeat split; reflexivity|].
  match goal with
  | |- length (f_data (session ?E)) = _ =>
      destruct (no_tick_leaves_empty_container E eq_refl eq_refl
                  (fun k => eq_refl) (fun k _ => eq_refl)
                  (or_introl eq_refl)) as (_ & H & _)
  end.
  exact H.
Defined.

(** * Failing writes and seeks *)

(** X9: a tick on which the write to the file fails goes on like any
    other: the bytes the file took before the error are appended, the error
    is logged, and the counter still grows by the 64 samples of [in], so
    that the counter runs ahead of the samples in the file. *)
Theorem write_error_still_counts E r w k e :
  write_res E (n_writes w) = WErr k e ->
  f_pos w = length (f_data w) -> length (in_buf w) = 64%nat ->
  let w' := snd (tick E r w) in
  numSamples w' = int (numSamples w + 64) /\
  f_data w' = f_data w ++ firstn k (be32s (in_buf w')) /\
  length (f_data w') = (length (f_data w) + Nat.min k 256)%nat /\
  exists pre,
    trace w' = pre ++
      [EvWrite (f_pos w) (be32s (in_buf w'));
       EvLog Error
         ("failed to write audio data to file as binary : " ++ e)%string].
Proof.
  intros Hw Hpos Hlen.
  destruct w as [data pos nw ns tr ds out er n b].
  cbn [n_writes f_pos f_data in_buf] in *. subst pos.
  assert (Hb : forall b', length b' = 64%nat ->
            length (firstn k (be32s b')) = Nat.min k 256).
  { intros b' Hb'. rewrite length_firstn, be32s_bytes, Hb'. reflexivity. }
  destruct r as [fresh|[fresh|] e']; cbn -[Z.add Z.of_nat Nat.min];
    rewrite Hw; cbn -[Z.add Z.of_nat Nat.min];
    rewrite write_at_end, length_app, Hb, ?refill_length, Hlen
      by (rewrite ?refill_length; exact Hlen);
    (split; [reflexivity|]); (split; [reflexivity|]);
    (split; [reflexivity|]);
    eexists; rewrite <- (app_assoc _ [_] [_]); reflexivity.
Qed.

Lemma write_error_still_counts_witness :
  let w := patch_world 0 in
  let w' := snd (tick disk_fills_up (ReadOk [7]) w) in
  (write_res disk_fills_up (n_writes w) = WErr 10 "no space left on device" /\
   f_pos w = length (f_data w) /\ length (in_buf w) = 64%nat) /\
  numSamples w' = int (numSamples w + 64) /\
  length (f_data w') = 64%nat.
Proof.
  cbv zeta. split; [repeat split; reflexivity|].
  destruct (write_error_still_counts disk_fills_up (ReadOk [7]) (patch_world 0)
              10 "no space left on device" eq_refl eq_refl eq_refl)
    as (H1 & _ & H2 & _).
  split; [exact H1|exact H2].
Defined.

Lemma fill_sizes_frame E w :
  let w' := snd (fill_sizes E w) in
  numSamples w' = numSamples w /\ n_seeks w' = (n_seeks w + 3)%nat /\
  n_writes w' = (n_writes w + 3)%nat.
Proof.
  destruct w as [data pos nw ns tr ds out e n b]. unfold_calls.
  repeat split; lia.
Qed.

Lemma write_at_thrice_idem a b c d :
  length a = 4%nat -> length b = 4%nat -> length c = 4%nat ->
  (46 <= length d)%nat ->
  let p x := write_at 42 c (write_at 22 b (write_at 4 a x)) in
  p (p d) = p d.
Proof.
  intros Ha Hb Hc Hd p.
  assert (L1 : forall x, (46 <= length x)%nat ->
            length (write_at 4 a x) = length x)
    by (intros; apply write_at_inside_length; lia).
  assert (L2 : forall x, (46 <= length x)%nat ->
            length (write_at 22 b (write_at 4 a x)) = length x)
    by (intros; rewrite write_at_inside_length; rewrite L1; lia).
  assert (L : forall x, (46 <= length x)%nat -> length (p x) = length x)
    by (intros; unfold p; rewrite write_at_inside_length; rewrite L2; lia).
  assert (N : forall x i, (46 <= length x)%nat ->
    nth_error (p x) i
      = if ((42 <=? i) && (i <? 46))%nat then nth_error c (i - 42)
        else if ((22 <=? i) && (i <? 26))%nat then nth_error b (i - 22)
        else if ((4 <=? i) && (i <? 8))%nat then nth_error a (i - 4)
        else nth_error x i).
  { intros x i Hx. unfold p.
    rewrite nth_error_write_at by (rewrite L2; lia).
    rewrite nth_error_write_at by (rewrite L1; lia).
    rewrite nth_error_write_at by lia.
    rewrite Ha, Hb, Hc. reflexivity. }
  apply nth_error_ext. intros i.
  rewrite (N (p d)) by (rewrite L; lia). rewrite (N d) by lia.
  destruct ((42 <=? i) && (i <? 46))%nat; [reflexivity|].
  destruct ((22 <=? i) && (i <? 26))%nat; [reflexivity|].
  destruct ((4 <=? i) && (i <? 8))%nat; reflexivity.
Qed.

(** X10: the size patches are idempotent on the file: a second run with
    the same counter, its seeks and writes going through like those of the
    first, writes the bytes that are there already. *)
Theorem fill_sizes_idempotent E w :
  (46 <= length (f_data w))%nat ->
  (forall k, (k < 6)%nat -> seek_res E (n_seeks w + k) = None) ->
  (forall k, (k < 6)%nat -> write_res E (n_writes w + k) = WOk) ->
  f_data (snd (fill_sizes E (snd (fill_sizes E w))))
    = f_data (snd (fill_sizes E w)).
Proof.
  intros Hd Hs Hw.
  destruct (fill_sizes_frame E w) as (Hn & Hns & Hnw).
  rewrite (fill_sizes_data E (snd (fill_sizes E w))).
  2: { intros k Hk. rewrite Hns, <- Nat.add_assoc. apply Hs. lia. }
  rewrite (fill_sizes_data E w) by (intros; apply Hs; lia).
  rewrite Hn, Hnw.
  rewrite <- !Nat.add_assoc. rewrite !Hw by lia.
  apply (write_at_thrice_idem _ _ _ (f_data w)); try exact Hd;
    apply be32_length.
Qed.

Lemma fill_sizes_idempotent_witness :
  let E := calm "" 0 [] ChDone in
  let w := patch_world 192 in
  ((46 <= length (f_data w))%nat) /\
  f_data (snd (fill_sizes E (snd (fill_sizes E w))))
    = f_data (snd (fill_sizes E w)).
Proof.
  cbv zeta.
  assert (H : (46 <= length (f_data (patch_world 192)))%nat)
    by (vm_compute; lia).
  split; [exact H|].
  apply (fill_sizes_idempotent (calm "" 0 [] ChDone) (patch_world 192) H
           (fun k _ => eq_refl) (fun k _ => eq_refl)).
Defined.

(** X11: a seek that fails is not noticed: the write after it lands where
    the cursor is.  When the seek to 22 fails after the first patch went
    through, the sample count is written at offset 8, over the format
    marker, and the sample-count field keeps what it held. *)
Theorem failed_seek_overwrites_format_marker E w e :
  (54 <= length (f_data w))%nat ->
  seek_res E (n_seeks w) = None ->
  seek_res E (S (n_seeks w)) = Some e ->
  write_res E (n_writes w) = WOk ->
  write_res E (S (n_writes w)) = WOk ->
  let d' := f_data (snd (fill_sizes E w)) in
  slice 8 4 d' = be32 (int32 (numSamples w)) /\
  slice 22 4 d' = slice 22 4 (f_data w) /\
  In (EvWrite 8 (be32 (int32 (numSamples w))))
     (trace (snd (fill_sizes E w))).
Proof.
  intros Hd S0 S1 W0 W1.
  destruct w as [data pos nw ns tr ds out er n b].
  cbn [n_seeks n_writes f_data numSamples] in *. cbv zeta.
  unfold_calls. rewrite S0, S1, W0, W1.
  change (4 + length (be32 (int32 (int (50 * n)))))%nat with 8%nat.
  change (8 + length (be32 (int32 n)))%nat with 12%nat.
  set (a := be32 (int32 (int (50 * n)))).
  set (c := be32 (int32 (int (int (4 * n) + 8)))).
  assert (L1 : length (write_at 4 a data) = length data)
    by (apply write_at_inside_length; unfold a; rewrite be32_length; lia).
  assert (L2 : length (write_at 8 (be32 (int32 n)) (write_at 4 a data))
               = length data)
    by (rewrite write_at_inside_length; rewrite ?be32_length; lia).
  assert (Hc : forall r : wres,
    (length (match r with WOk => c | WErr j _ => firstn j c end) <= 4)%nat).
  { intros r. etransitivity; [apply took_length|].
    unfold c. rewrite be32_length. lia. }
  split; [|split].
  - destruct (seek_res E (S (S ns)));
      rewrite slice_write_at_other
        by (rewrite ?L2; pose proof (Hc (write_res E (S (S nw)))); lia);
      apply (slice_write_at 8 (be32 (int32 n)));
      rewrite L1, be32_length; lia.
  - destruct (seek_res E (S (S ns)));
      rewrite !slice_write_at_other
        by (rewrite ?L2, ?L1, ?be32_length; unfold a;
            rewrite ?be32_length;
            pose proof (Hc (write_res E (S (S nw)))); lia);
      reflexivity.
  - rewrite !in_app_iff. cbn [In]. tauto.
Qed.

Lemma failed_seek_overwrites_format_marker_witness :
  let w := patch_world 192 in
  ((54 <= length (f_data w))%nat /\
   seek_res second_seek_fails (S (n_seeks w)) = Some "invalid argument") /\
  slice 8 4 (f_data (snd (fill_sizes second_seek_fails w))) = [0; 0; 0; 192].
Proof.
  cbv zeta.
  assert (H : (54 <= length (f_data (patch_world 192)))%nat)
    by (vm_compute; lia).
  split; [split; [exact H|reflexivity]|].
  destruct (failed_seek_overwrites_format_marker second_seek_fails
              (patch_world 192) "invalid argument" H eq_refl eq_refl
              eq_refl eq_refl) as (V & _).
  rewrite V. vm_compute. reflexivity.
Defined.

(** * Order of acquisition and release *)

Lemma run_closure_acquires E d w :
  exists lt, trace (snd (run_closure E d w)) = trace w ++ lt /\
    count is_initialize lt = 0%nat /\ count is_open_stream lt = 0%nat /\
    count is_stream_start lt = 0%nat /\
    filter is_release lt = [release_of d].
Proof.
  assert (R : forall r a b, is_release (status r a b) = false)
    by (intros [] ? ?; reflexivity).
  destruct w as [data pos nw ns tr ds out e n b].
  destruct d; unfold_calls; rewrite <- ?app_assoc; cbn [app]; eexists;
    (split; [reflexivity|]);
    (split; [count_calls|]); (split; [count_calls|]);
    (split; [count_calls|]);
    cbn -[status]; rewrite ?R; reflexivity.
Qed.

Lemma run_closures_acquires E ds : forall w,
  exists lt, trace (snd (run_closures E ds w)) = trace w ++ lt /\
    count is_initialize lt = 0%nat /\ count is_open_stream lt = 0%nat /\
    count is_stream_start lt = 0%nat /\
    filter is_release lt = map release_of ds.
Proof.
  induction ds as [|d ds IH]; intros w.
  - exists []. cbn. rewrite app_nil_r. repeat split.
  - rewrite run_closures_cons.
    destruct (run_closure_acquires E d w) as (lt & Ht & A1 & A2 & A3 & R).
    destruct (IH (snd (run_closure E d w)))
      as (lt' & Ht' & A1' & A2' & A3' & R').
    exists (lt ++ lt'). rewrite Ht', Ht, <- app_assoc, !count_app.
    rewrite A1, A1', A2, A2', A3, A3', filter_app, R, R'.
    repeat split.
Qed.

(** X12: each acquisition is attempted at most once and only when
    everything before it went through: portaudio is initialised only with
    the header written, the stream is opened only on an initialised
    portaudio and started only when opened, and the stream is read only
    when started. *)
Theorem acquisitions_in_order E :
  let tr := trace (session E) in
  let created := succeeded (create_res E) in
  let initialised := created && header_ok E && succeeded (init_res E) in
  let opened := initialised && succeeded (open_res E) in
  let started := opened && succeeded (start_res E) in
  count is_initialize tr = (if created && header_ok E then 1 else 0)%nat /\
  count is_open_stream tr = (if initialised then 1 else 0)%nat /\
  count is_stream_start tr = (if opened then 1 else 0)%nat /\
  reads tr = (if started then length (ticks E) else 0%nat).
Proof.
  cbv zeta. split; [|split; [|split]]; [| | |apply (session_counts E)].
  all: rewrite session_deferred;
    destruct (run_closures_acquires E (defers (at_return E)) (at_return E))
      as (lt & -> & A1 & A2 & A3 & _);
    destruct (at_return_calls E) as (_ & _ & _ & _ & B1 & B2 & B3 & _);
    rewrite count_app, ?A1, ?A2, ?A3, ?B1, ?B2, ?B3; lia.
Qed.

Lemma filter_nil_of_count (p : event -> bool) l :
  count p l = 0%nat -> forall ev, In ev l -> p ev = false.
Proof.
  unfold count. induction l as [|x l IH]; intros H ev Hin.
  - destruct Hin.
  - cbn in H. destruct Hin as [<-|Hin].
    + destruct (p x); [discriminate|reflexivity].
    + destruct (p x); [discriminate|]. apply IH; assumption.
Qed.

Lemma filter_none (p : event -> bool) l :
  (forall ev, In ev l -> p ev = false) -> filter p l = [].
Proof.
  induction l as [|x l IH]; intros H; [reflexivity|].
  cbn [filter]. rewrite (H x (or_introl eq_refl)).
  apply IH. intros ev Hin. apply H. right. exact Hin.
Qed.

(** X14: on every way out of Run the deferred closures run in the reverse
    of the order of acquisition, from the last that was registered down to
    the closing of the file: the marks they leave in the trace are a tail
    of stream stop, stream close, terminate, size patches, file close. *)
Theorem releases_in_reverse_order E :
  exists k,
    filter is_release (trace (session E))
      = skipn k [EvStreamStop; EvStreamClose; EvTerminate;
                 EvLog Info "filling in missing sizes"; EvFileClose].
Proof.
  rewrite session_deferred.
  destruct (at_return_spec E) as (Hd & _ & _ & F & C & _).
  destruct (at_return_calls E) as (_ & S1 & S2 & S3 & _).
  destruct (run_closures_acquires E (defers (at_return E)) (at_return E))
    as (lt & -> & _ & _ & _ & R).
  assert (Hb : filter is_release (trace (at_return E)) = []).
  { assert (H : forall ev, In ev (trace (at_return E)) -> is_release ev = false).
    { intros ev Hin. unfold is_release.
      rewrite (filter_nil_of_count _ _ S1 ev Hin),
        (filter_nil_of_count _ _ S2 ev Hin),
        (filter_nil_of_count _ _ S3 ev Hin),
        (filter_nil_of_count _ _ F ev Hin),
        (filter_nil_of_count _ _ C ev Hin). reflexivity. }
    apply filter_none. exact H. }
  rewrite filter_app, Hb, R, Hd. cbn [app]. unfold registered.
  destruct (create_res E); cbn [succeeded negb]; [exists 5%nat; reflexivity|].
  destruct (header_ok E); cbn [negb]; [|exists 4%nat; reflexivity].
  destruct (init_res E); cbn [succeeded negb]; [exists 3%nat; reflexivity|].
  destruct (open_res E); cbn [succeeded negb]; [exists 2%nat; reflexivity|].
  destruct (start_res E); cbn [succeeded negb];
    [exists 1%nat|exists 0%nat]; reflexivity.
Qed.

(** * Read errors, and the file *)

(** C5: a tick on which [stream.Read] fails goes on like any other: the
    error is logged, [in] is written at the end of the file as it is (as
    it was before, when the library did not touch it), and the counter
    grows by the 64 samples of [in].  When the file takes the write, the
    256 bytes of [in] are appended and read back as its samples.  The loop
    goes on, with one read per tick and the cursor at the end of the file,
    and the count a session ends with depends on the number of ticks
    alone, as does the length of the file when every write goes
    through. *)
Theorem read_error_still_counts E :
  (forall touched e w,
     length (in_buf w) = 64%nat -> f_pos w = length (f_data w) ->
     let w' := snd (tick E (ReadErr touched e) w) in
     numSamples w' = int (numSamples w + 64) /\
     (touched = None -> in_buf w' = in_buf w) /\
     length (in_buf w') = 64%nat /\
     (exists rest,
        trace w' = trace w ++
          EvStreamRead
          :: EvLog Error ("failed to read from audio stream : " ++ e)%string
          :: EvWrite (length (f_data w)) (be32s (in_buf w')) :: rest) /\
     f_pos w' = length (f_data w') /\
     f_data w'
       = f_data w ++
         match write_res E (n_writes w) with
         | WOk => be32s (in_buf w')
         | WErr k _ => firstn k (be32s (in_buf w'))
         end /\
     (write_res E (n_writes w) = WOk ->
      f_data w' = f_data w ++ be32s (in_buf w') /\
      length (f_data w') = (length (f_data w) + 256)%nat /\
      decode32s (skipn (length (f_data w)) (f_data w'))
        = map int32 (in_buf w'))) /\
  (forall ts c w,
     int (numSamples w) = numSamples w -> length (in_buf w) = 64%nat ->
     f_pos w = length (f_data w) ->
     let w' := snd (recording E ts c w) in
     numSamples w' = int (numSamples w + 64 * Z.of_nat (length ts)) /\
     reads (skipn (length (trace w)) (trace w')) = length ts /\
     f_pos w' = length (f_data w') /\
     exists appended, f_data w' = f_data w ++ appended) /\
  (forall E', setup_ok E' = setup_ok E ->
     length (ticks E') = length (ticks E) ->
     numSamples (session E') = numSamples (session E)) /\
  (setup_ok E = true ->
   (forall k, (k < length (ticks E))%nat -> write_res E (13 + k) = WOk) ->
   f_data (at_return E)
     = header_bytes ++ be32s (frames (repeat 0 64) (ticks E)) /\
   length (f_data (at_return E)) = (54 + 256 * length (ticks E))%nat).
Proof.
  split; [|split; [|split]].
  - intros touched e w Hlen Hpos w'. subst w'.
    destruct w as [data pos nw ns tr ds out er n b].
    cbn [in_buf f_pos f_data n_writes numSamples trace] in *. subst pos.
    assert (Hb : forall b', length b' = 64%nat ->
              length (be32s b') = 256%nat)
      by (intros b' Hb'; rewrite be32s_bytes, Hb'; reflexivity).
    assert (Hskip : forall x : list Z, skipn (length data) (data ++ x) = x).
    { intros x. rewrite skipn_app, skipn_all, Nat.sub_diag. reflexivity. }
    destruct touched as [fresh|]; cbn -[Z.add Z.of_nat];
      destruct (write_res E nw) as [|k e'] eqn:Hw; cbn -[Z.add Z.of_nat];
      rewrite ?refill_length, Hlen, write_at_end, length_app;
      rewrite <- ?app_assoc; cbn [app];
      (split; [reflexivity|]);
      (split; [try discriminate; reflexivity|]);
      (split; [rewrite ?refill_length; first [exact Hlen|reflexivity]|]);
      (split; [eexists; reflexivity|]);
      (split; [reflexivity|]);
      (split; [reflexivity|]);
      try (intros; discriminate);
      intros _; rewrite Hskip, decode32s_be32s, Hb
        by (rewrite ?refill_length; exact Hlen);
      repeat split.
  - intros ts c w Hn Hlen Hpos w'. subst w'.
    destruct (recording_spec E ts c w Hn)
      as (_ & _ & _ & _ & _ & _ & Hc & lt & Ht & Hr & _).
    destruct (recording_appends E ts c w Hpos) as (Hp & tail & Hd).
    rewrite Hlen in Hc. split; [exact Hc|]. split.
    + rewrite Ht, skipn_app, Nat.sub_diag, skipn_all. cbn [skipn app].
      unfold reads in *. rewrite count_app, Hr. cbn. lia.
    + split; [exact Hp|]. exists tail. exact Hd.
  - intros E' Hs Hl.
    destruct (at_return_spec E) as (_ & Hn & Hr & _).
    destruct (at_return_spec E') as (_ & Hn' & Hr' & _).
    destruct (session_spec E) as (Hq & _).
    destruct (session_spec E') as (Hq' & _).
    rewrite Hq, Hq', Hn, Hn', Hr, Hr', Hs, Hl. reflexivity.
  - apply at_return_frames.
Qed.

Lemma read_error_still_counts_witness :
  let w := patch_world 0 in
  let w' := snd (tick three_ticks (ReadErr None "input overflowed") w) in
  let tired := calm "" 0 [ReadOk []; ReadOk []; ReadOk []] ChDone in
  (length (in_buf w) = 64%nat /\ f_pos w = length (f_data w) /\
   write_res three_ticks (n_writes w) = WOk /\
   setup_ok tired = setup_ok three_ticks /\
   length (ticks tired) = length (ticks three_ticks) /\
   setup_ok three_ticks = true) /\
  numSamples w' = int (numSamples w + 64) /\
  length (f_data w') = 310%nat /\
  numSamples (session tired) = numSamples (session three_ticks) /\
  length (f_data (at_return three_ticks)) = 822%nat.
Proof.
  cbv zeta. split; [repeat split; reflexivity|].
  destruct (read_error_still_counts three_ticks) as (T & _ & S & F).
  destruct (T None "input overflowed" (patch_world 0) eq_refl eq_refl)
    as (T1 & _ & _ & _ & _ & _ & T2).
  destruct (T2 eq_refl) as (_ & T3 & _).
  destruct (F eq_refl (fun k _ => eq_refl)) as (_ & F1).
  split; [exact T1|]. split; [exact T3|]. split; [apply S; reflexivity|].
  exact F1.
Defined.

(** * A clean stop with failures in the teardown *)

(** C6: on a stop by a line on stdin the five deferred closures run in the
    order stream stop, stream close, terminate, size patches, file close,
    and a failure of one does not keep the next from running: here
    [stream.Stop()] fails, its error is logged, and the other four follow.
    The size patches do not report their own failure: their second write
    fails, the sample-count field stays 0 for a take of 64 samples, and the
    line logged is the success line. *)
Theorem clean_stop_hides_failed_patch :
  setup_ok stop_and_patch_fail = true /\
  ending stop_and_patch_fail = ChDone /\
  stop_res stop_and_patch_fail = Some "stream is stopped" /\
  write_res stop_and_patch_fail 15 = WErr 0 "input/output error" /\
  since is_done (trace (session stop_and_patch_fail))
    = [EvRecv ChDone;
       EvLog Info "stopping audio stream"; EvStreamStop;
       EvLog Error "failed to stop audio stream : stream is stopped";
       EvLog Info "closing audio stream"; EvStreamClose;
       EvLog Success "successfully closed audio stream";
       EvLog Info "terminating portaudio"; EvTerminate;
       EvLog Success "successfully terminated port audio";
       EvLog Info "filling in missing sizes";
       EvSeek 4; EvWrite 4 [0; 0; 12; 128];
       EvSeek 22; EvWrite 22 [0; 0; 0; 64];
       EvSeek 42; EvWrite 42 [0; 0; 1; 8];
       EvLog Success "successfully filled in missing sizes.";
       EvLog Info "closing take.aiff"; EvFileClose;
       EvLog Success "successfully closed take.aiff"] /\
  numSamples (session stop_and_patch_fail) = 64 /\
  slice 22 4 (f_data (session stop_and_patch_fail)) = [0; 0; 0; 0].
Proof. repeat split; vm_compute; reflexivity. Qed.

(** * The header and the samples behind it *)

Lemma skipn_header (x : list Z) : skipn 54 (header_bytes ++ x) = x.
Proof. reflexivity. Qed.

(** C2: once the three chunks are written the file starts with the 54
    bytes of the header: the form marker at 0, a zero size at 4, the format
    marker at 8, the common-chunk marker at 12, big-endian 18 at 16, one
    channel (00 01) at 20, a zero sample count at 22, 32 bits per sample
    (00 20) at 26, the ten bytes of the sample rate at 28, the sound-chunk
    marker at 38 and three zero words at 42, 46 and 50.  What the capture
    loop writes follows from offset 54 on: with every write of the loop
    going through, the bytes from 54 are the frames read, four big-endian
    bytes per sample.  The cursor is at the end of the file. *)
Theorem header_layout E :
  create_res E = None -> header_ok E = true ->
  let d := f_data (at_return E) in
  let header :=
    [70; 79; 82; 77; 0; 0; 0; 0; 65; 73; 70; 70;
     67; 79; 77; 77; 0; 0; 0; 18; 0; 1; 0; 0; 0; 0; 0; 32;
     64; 14; 172; 68; 0; 0; 0; 0; 0; 0;
     83; 83; 78; 68; 0; 0; 0; 0; 0; 0; 0; 0; 0; 0; 0; 0] in
  slice 0 4 d = [70; 79; 82; 77] /\
  slice 4 4 d = [0; 0; 0; 0] /\
  slice 8 4 d = [65; 73; 70; 70] /\
  slice 12 4 d = [67; 79; 77; 77] /\
  slice 16 4 d = [0; 0; 0; 18] /\
  slice 20 2 d = [0; 1] /\
  slice 22 4 d = [0; 0; 0; 0] /\
  slice 26 2 d = [0; 32] /\
  slice 28 10 d = [64; 14; 172; 68; 0; 0; 0; 0; 0; 0] /\
  slice 38 4 d = [83; 83; 78; 68] /\
  slice 42 4 d = [0; 0; 0; 0] /\
  slice 46 4 d = [0; 0; 0; 0] /\
  slice 50 4 d = [0; 0; 0; 0] /\
  (be_int32 (slice 16 4 d) = 18 /\ be_unsigned (slice 20 2 d) = 1 /\
   be_unsigned (slice 26 2 d) = 32) /\
  firstn 54 d = header /\
  (exists samples, d = header ++ samples) /\
  (setup_ok E = true ->
   (forall k, (k < length (ticks E))%nat -> write_res E (13 + k) = WOk) ->
   skipn 54 d = be32s (frames (repeat 0 64) (ticks E)) /\
   length d = (54 + 4 * (64 * length (ticks E)))%nat) /\
  (54 <= length d)%nat /\ f_pos (at_return E) = length d.
Proof.
  intros Hc Hh d header.
  assert (Hfr : setup_ok E = true ->
    (forall k, (k < length (ticks E))%nat -> write_res E (13 + k) = WOk) ->
    skipn 54 d = be32s (frames (repeat 0 64) (ticks E)) /\
    length d = (54 + 4 * (64 * length (ticks E)))%nat).
  { intros Hs Hw. destruct (at_return_frames E Hs Hw) as (H & L).
    unfold d. split; [rewrite H; apply skipn_header|]. rewrite L. lia. }
  destruct (at_return_spec E) as (_ & _ & _ & _ & _ & _ & Hf & _).
  rewrite Hc, Hh in Hf. destruct (Hf eq_refl) as (Hpos & samples & Hd).
  fold d in Hd, Hpos. rewrite Hpos. revert Hfr. rewrite Hd. intros Hfr.
  repeat (split; [vm_compute; reflexivity|]).
  split; [repeat split; vm_compute; reflexivity|].
  split; [vm_compute; reflexivity|].
  split; [exists samples; reflexivity|].
  split; [exact Hfr|].
  split; [|reflexivity].
  rewrite length_app. change (length header_bytes) with 54%nat. lia.
Qed.

Lemma header_layout_witness :
  let d := f_data (at_return three_ticks) in
  (create_res three_ticks = None /\ header_ok three_ticks = true /\
   setup_ok three_ticks = true) /\
  slice 16 4 d = [0; 0; 0; 18] /\
  slice 20 2 d = [0; 1] /\
  slice 26 2 d = [0; 32] /\
  length (skipn 54 d) = 768%nat /\
  f_pos (at_return three_ticks) = length d.
Proof.
  cbv zeta. split; [repeat split; reflexivity|].
  destruct (header_layout three_ticks eq_refl eq_refl)
    as (_ & _ & _ & _ & H & C & _ & B & _ & _ & _ & _ & _ & _ & _ & _ & F & _ & P).
  destruct (F eq_refl (fun k _ => eq_refl)) as (F1 & _).
  split; [exact H|]. split; [exact C|]. split; [exact B|].
  split; [rewrite F1; vm_compute; reflexivity|exact P].
Defined.
